(** * Vehicle detail pages: identifier, slug, sitemap and inventory views

    A shallow embedding of the two runtimes of the dealership site:

    - [Utils] and [Client]: [assets/js/utils.js] and [inventory-loader.js]
      (the browser side);
    - [Generator]: [generate-vdp-pages.ps1] (the offline page generator).

    Text is a sequence of UTF-16 code units; the embedding keeps the code
    units [0 .. 255] (one [ascii] each), on which UTF-8 encoding, trimming
    and the two regular-expression classes of the sources are written out.
    JSON numbers are the integer ones ([Z]); both runtimes hold and print
    them exactly up to 2^53 - 1 in magnitude, and the statements that depend
    on the digits of a number say so.  In the digest a 32-bit value is kept
    by its representative in [0, 2^32), every wrap-around written out;
    [rotl] returns the signed number of the source. *)

From Stdlib Require Import ZArith List Bool Lia.
From Stdlib Require Import Sorting.Permutation Sorting.Sorted.
From Stdlib Require Import Strings.String Strings.Ascii Numbers.DecimalString.
Import ListNotations.

Open Scope string_scope.
Open Scope Z_scope.

(* ------------------------------------------------------------------ *)
(** ** Text *)

Module Text.

Definition code (c : ascii) : Z := Z.of_N (N_of_ascii c).
Definition chr (n : Z) : ascii := ascii_of_N (Z.to_N n).

Definition is_digit (c : ascii) : bool := (48 <=? code c) && (code c <=? 57).
Definition is_upper (c : ascii) : bool := (65 <=? code c) && (code c <=? 90).
Definition is_lower (c : ascii) : bool := (97 <=? code c) && (code c <=? 122).

(** The class [a-zA-Z0-9]; also what [a-z0-9] denotes under the [i] flag. *)
Definition is_alnum (c : ascii) : bool := is_digit c || is_upper c || is_lower c.

Fixpoint forallb_str (p : ascii -> bool) (s : string) : bool :=
  match s with
  | EmptyString => true
  | String c s' => p c && forallb_str p s'
  end.

Fixpoint existsb_str (p : ascii -> bool) (s : string) : bool :=
  match s with
  | EmptyString => false
  | String c s' => p c || existsb_str p s'
  end.

Fixpoint filter_str (p : ascii -> bool) (s : string) : string :=
  match s with
  | EmptyString => EmptyString
  | String c s' => if p c then String c (filter_str p s') else filter_str p s'
  end.

Fixpoint map_str (f : ascii -> ascii) (s : string) : string :=
  match s with
  | EmptyString => EmptyString
  | String c s' => String (f c) (map_str f s')
  end.

Fixpoint rev_str_onto (s acc : string) : string :=
  match s with
  | EmptyString => acc
  | String c s' => rev_str_onto s' (String c acc)
  end.

Definition rev_str (s : string) : string := rev_str_onto s EmptyString.

(** Removal of the leading characters that satisfy [p]. *)
Fixpoint drop_while (p : ascii -> bool) (s : string) : string :=
  match s with
  | EmptyString => EmptyString
  | String c s' => if p c then drop_while p s' else s
  end.

Definition is_empty (s : string) : bool :=
  match s with EmptyString => true | String _ _ => false end.

(** Removal of the trailing characters that satisfy [p]: [TrimEnd]. *)
Fixpoint drop_while_end (p : ascii -> bool) (s : string) : string :=
  match s with
  | EmptyString => EmptyString
  | String c s' =>
      let rest := drop_while_end p s' in
      if is_empty rest && p c then EmptyString else String c rest
  end.

(** Removal of the leading and trailing characters that satisfy [p]:
    [String.prototype.trim], [String.Trim], [Trim('-')], [/^-+|-+$/g]. *)
Definition strip (p : ascii -> bool) (s : string) : string :=
  drop_while_end p (drop_while p s).

(** [join sep l]: [Array.prototype.join] and [-join] on texts. *)
Fixpoint join (sep : string) (l : list string) : string :=
  match l with
  | [] => EmptyString
  | [s] => s
  | s :: l' => s ++ sep ++ join sep l'
  end.

(** [hay] begins with [needle]. *)
Fixpoint starts_with (needle hay : string) : bool :=
  match needle, hay with
  | EmptyString, _ => true
  | String _ _, EmptyString => false
  | String a needle', String b hay' => Ascii.eqb a b && starts_with needle' hay'
  end.

(** [needle] occurs in [hay] as a contiguous run: [hay.includes(needle)]. *)
Fixpoint contains (needle hay : string) : bool :=
  starts_with needle hay ||
  match hay with
  | EmptyString => false
  | String _ hay' => contains needle hay'
  end.

(** Replacement of every maximal run of characters satisfying [p] by the
    single character [r]: [replace(/[^a-z0-9]+/gi, '-')]. *)
Fixpoint squash_from (in_run : bool) (p : ascii -> bool) (r : ascii)
    (s : string) : string :=
  match s with
  | EmptyString => EmptyString
  | String c s' =>
      if p c then
        if in_run then squash_from true p r s'
        else String r (squash_from true p r s')
      else String c (squash_from false p r s')
  end.

Definition squash_runs : (ascii -> bool) -> ascii -> string -> string :=
  squash_from false.

Definition string_of_Z (z : Z) : string := NilZero.string_of_int (Z.to_int z).

End Text.

(* ------------------------------------------------------------------ *)
(** ** [assets/js/utils.js]: the synchronous SHA-1 *)

Module Utils.
Import Text.

(** [x | 0], kept as the unsigned representative of the 32-bit value. *)
Definition int32 (x : Z) : Z := x mod 4294967296.

(** [ToInt32]: the signed reading of the low 32 bits of an integer, the
    number that [<<] and [|] return. *)
Definition ToInt32 (x : Z) : Z :=
  (x + 2147483648) mod 4294967296 - 2147483648.

(** [rotl(n, s) = (n << s) | (n >>> (32 - s))].  Both shift counts are taken
    modulo 32; [<<] shifts the signed reading of [n] and [>>>] the unsigned
    one; [<<] and [|] return a signed 32-bit integer. *)
Definition rotl (n s : Z) : Z :=
  ToInt32 (Z.lor (ToInt32 (Z.shiftl (ToInt32 n) (s mod 32)))
             (Z.shiftr (int32 n) ((32 - s) mod 32))).

Definition hexDigit (d : Z) : ascii :=
  if d <? 10 then chr (48 + d) else chr (87 + d).

Fixpoint toString16_loop (fuel : nat) (n : Z) (acc : string) : string :=
  match fuel with
  | O => acc
  | S fuel' =>
      let acc' := String (hexDigit (n mod 16)) acc in
      if n / 16 =? 0 then acc' else toString16_loop fuel' (n / 16) acc'
  end.

(** [Number.prototype.toString(16)] on a non-negative integer. *)
Definition toString16 (n : Z) : string :=
  toString16_loop (S (Z.to_nat (Z.log2 n))) n EmptyString.

Fixpoint repeat_str (c : ascii) (n : nat) : string :=
  match n with
  | O => EmptyString
  | S n' => String c (repeat_str c n')
  end.

Definition padStart (len : nat) (fill : ascii) (s : string) : string :=
  repeat_str fill (len - String.length s) ++ s.

(** [toHex(i) = (i >>> 0).toString(16).padStart(8, '0')]. *)
Definition toHex (i : Z) : string := padStart 8 "0" (toString16 (int32 i)).

(** [unescape(encodeURIComponent(msg))]: one byte per code unit below 128,
    two for the code units 128 .. 255. *)
Definition utf8_unit (c : ascii) : list Z :=
  let n := code c in
  if n <? 128 then [n]
  else [Z.lor 192 (Z.shiftr n 6); Z.lor 128 (Z.land n 63)].

Fixpoint utf8 (s : string) : list Z :=
  match s with
  | EmptyString => []
  | String c s' => utf8_unit c ++ utf8 s'
  end.

(** [words[i] |= x] on a JavaScript array: a hole reads as [undefined],
    which [|] coerces to 0, and writing past the end extends the array. *)
Fixpoint array_or (i : nat) (x : Z) (words : list Z) : list Z :=
  match i, words with
  | O, [] => [int32 x]
  | O, w :: ws => int32 (Z.lor w x) :: ws
  | S i', [] => 0 :: array_or i' x []
  | S i', w :: ws => w :: array_or i' x ws
  end.

(** [words[i] = x]. *)
Fixpoint array_set (i : nat) (x : Z) (words : list Z) : list Z :=
  match i, words with
  | O, [] => [x]
  | O, _ :: ws => x :: ws
  | S i', [] => 0 :: array_set i' x []
  | S i', w :: ws => w :: array_set i' x ws
  end.

(** The first loop: [words[i >> 2] |= msg.charCodeAt(i) << (24 - (i % 4) * 8)]. *)
Fixpoint pack (bytes : list Z) (i : Z) (words : list Z) : list Z :=
  match bytes with
  | [] => words
  | b :: bs =>
      pack bs (i + 1)
        (array_or (Z.to_nat (Z.shiftr i 2)) (Z.shiftl b (24 - (i mod 4) * 8)) words)
  end.

(** The padding: [words[ml >> 5] |= 0x80 << (24 - ml % 32)] and
    [words[(((ml + 64) >> 9) << 4) + 15] = ml].  The shifts are those of the
    integers, which is what [>>] and [<<] compute as long as [ml + 64] is
    below 2^31, that is for messages shorter than 2^28 - 8 bytes. *)
Definition padded (bytes : list Z) : list Z :=
  let ml := Z.of_nat (List.length bytes) * 8 in
  let words := pack bytes 0 [] in
  let words := array_or (Z.to_nat (Z.shiftr ml 5))
                 (Z.shiftl 128 (24 - ml mod 32)) words in
  array_set (Z.to_nat (Z.shiftl (Z.shiftr (ml + 64) 9) 4 + 15)) ml words.

(** [rw] holds [w[t-1], w[t-2], ..., w[0]]; one step appends
    [w[t] = rotl(w[t-3] ^ w[t-8] ^ w[t-14] ^ w[t-16], 1)]. *)
Fixpoint expand (n : nat) (rw : list Z) : list Z :=
  match n with
  | O => rw
  | S n' =>
      let x := Z.lxor (Z.lxor (Z.lxor (nth 2 rw 0) (nth 7 rw 0)) (nth 13 rw 0))
                 (nth 15 rw 0) in
      expand n' (rotl x 1 :: rw)
  end.

Definition schedule (words : list Z) (i : nat) : list Z :=
  let w16 := map (fun t => int32 (nth (i + t) words 0)) (seq 0 16) in
  rev (expand 64 (rev w16)).

Definition State : Type := Z * Z * Z * Z * Z.

Definition round (st : State) (t : Z) (wt : Z) : State :=
  let '(a, b, c, d, e) := st in
  let '(f, k) :=
    if t <? 20 then (Z.lor (Z.land b c) (Z.land (Z.lnot b) d), 0x5A827999)
    else if t <? 40 then (Z.lxor (Z.lxor b c) d, 0x6ED9EBA1)
    else if t <? 60 then
      (Z.lor (Z.lor (Z.land b c) (Z.land b d)) (Z.land c d), 0x8F1BBCDC)
    else (Z.lxor (Z.lxor b c) d, 0xCA62C1D6) in
  let temp := int32 (rotl a 5 + f + e + k + wt) in
  (temp, a, int32 (rotl b 30), c, d).

Fixpoint rounds (w : list Z) (t : Z) (st : State) : State :=
  match w with
  | [] => st
  | wt :: w' => rounds w' (t + 1) (round st t wt)
  end.

Definition block (words : list Z) (i : nat) (h : State) : State :=
  let '(h0, h1, h2, h3, h4) := h in
  let '(a, b, c, d, e) := rounds (schedule words i) 0 h in
  (int32 (h0 + a), int32 (h1 + b), int32 (h2 + c), int32 (h3 + d), int32 (h4 + e)).

(** [for (let i = 0; i < words.length; i += 16)], with [n] the number of
    iterations still to run. *)
Fixpoint blocks (n : nat) (words : list Z) (i : nat) (h : State) : State :=
  match n with
  | O => h
  | S n' => blocks n' words (i + 16) (block words i h)
  end.

Definition iterations (len : nat) : nat := Nat.div (len + 15) 16.

Definition digest (bytes : list Z) : State :=
  let words := padded bytes in
  blocks (iterations (List.length words)) words 0
    (0x67452301, 0xEFCDAB89, 0x98BADCFE, 0x10325476, 0xC3D2E1F0).

(** [sha1Hex(msg)]; [msg || ''] leaves a text unchanged. *)
Definition sha1Hex (msg : string) : string :=
  let '(h0, h1, h2, h3, h4) := digest (utf8 msg) in
  toHex h0 ++ toHex h1 ++ toHex h2 ++ toHex h3 ++ toHex h4.

End Utils.

(* ------------------------------------------------------------------ *)
(** ** The inventory document *)

(** A field of a decoded JSON record.  [VUndefined] is a property that the
    record does not have; [ConvertFrom-Json] gives [$null] for it and for a
    JSON [null] alike. *)
Inductive value : Type :=
  | VUndefined
  | VNull
  | VBool (b : bool)
  | VNum (n : Z)
  | VStr (s : string).

Module V.
Record Vehicle : Type := mk {
  vehicleId : value;
  stockNumber : value;
  id : value;
  vin : value;
  year : value;
  make : value;
  model : value;
  trim : value;
  price : value;
  mileage : value;
  dateAdded : value;
  type : value;
  description : value;
  status : value
}.

(** The record [{}]. *)
Definition empty : Vehicle :=
  mk VUndefined VUndefined VUndefined VUndefined VUndefined VUndefined
     VUndefined VUndefined VUndefined VUndefined VUndefined VUndefined
     VUndefined VUndefined.

Definition with_vehicleId (x : value) (v : Vehicle) : Vehicle :=
  mk x (stockNumber v) (id v) (vin v) (year v) (make v) (model v) (trim v)
     (price v) (mileage v) (dateAdded v) (type v) (description v) (status v).

Definition with_stockNumber (x : value) (v : Vehicle) : Vehicle :=
  mk (vehicleId v) x (id v) (vin v) (year v) (make v) (model v) (trim v)
     (price v) (mileage v) (dateAdded v) (type v) (description v) (status v).

Definition with_vin (x : value) (v : Vehicle) : Vehicle :=
  mk (vehicleId v) (stockNumber v) (id v) x (year v) (make v) (model v)
     (trim v) (price v) (mileage v) (dateAdded v) (type v) (description v)
     (status v).

Definition with_price (x : value) (v : Vehicle) : Vehicle :=
  mk (vehicleId v) (stockNumber v) (id v) (vin v) (year v) (make v) (model v)
     (trim v) x (mileage v) (dateAdded v) (type v) (description v) (status v).

Definition with_mileage (x : value) (v : Vehicle) : Vehicle :=
  mk (vehicleId v) (stockNumber v) (id v) (vin v) (year v) (make v) (model v)
     (trim v) (price v) x (dateAdded v) (type v) (description v) (status v).

Definition with_status (x : value) (v : Vehicle) : Vehicle :=
  mk (vehicleId v) (stockNumber v) (id v) (vin v) (year v) (make v) (model v)
     (trim v) (price v) (mileage v) (dateAdded v) (type v) (description v) x.
End V.

Abbreviation Vehicle := V.Vehicle.

(** A JavaScript number: the integer-valued ones and [NaN]. *)
Inductive number : Type :=
  | NaN
  | Fin (n : Z).

(** The built-ins of the browser whose grammar is not part of the sources:
    the numeric reading of a text ([Number(s)], as applied by [<]) and
    [Date.parse]. *)
Class JSHost : Type := {
  StringToNumber : string -> number;
  Date_parse : string -> number
}.

(** The conversion [[int]"..."] of PowerShell; [None] is the exception that
    the cast raises. *)
Class PSHost : Type := {
  StringToInt32 : string -> option Z
}.

(* ------------------------------------------------------------------ *)
(** ** [inventory-loader.js]: identifier and URL *)

Module Client.
Import Text.

Definition ToBoolean (x : value) : bool :=
  match x with
  | VUndefined | VNull => false
  | VBool b => b
  | VNum n => negb (n =? 0)
  | VStr s => negb (is_empty s)
  end.

(** [String(x)].  A number is printed with the digits of the integer, which
    is what the loader prints for an integer of magnitude up to 2^53 - 1;
    beyond that it holds the nearest double and prints its digits. *)
Definition ToString (x : value) : string :=
  match x with
  | VUndefined => "undefined"
  | VNull => "null"
  | VBool true => "true"
  | VBool false => "false"
  | VNum n => string_of_Z n
  | VStr s => s
  end.

(** [a || b]. *)
Definition or (a b : value) : value := if ToBoolean a then a else b.

(** White space and line terminators removed by [String.prototype.trim]. *)
Definition is_space (c : ascii) : bool :=
  let n := code c in
  ((9 <=? n) && (n <=? 13)) || (n =? 32) || (n =? 160).

Definition is_hyphen (c : ascii) : bool := code c =? 45.

Definition not_alnum (c : ascii) : bool := negb (is_alnum c).

(** [s.slice(0, n)]. *)
Definition slice0 (n : nat) (s : string) : string := substring 0 n s.

(** The first line of [vehicleId(v)]:
    [raw = v.vehicleId || v.stockNumber || v.id]. *)
Definition identity (v : Vehicle) : value :=
  or (or (V.vehicleId v) (V.stockNumber v)) (V.id v).

(** The fallback seed of [vehicleId(v)]. *)
Definition seed (v : Vehicle) : value :=
  let fields := [V.year v; V.make v; V.model v; V.trim v;
                 V.price v; V.mileage v; V.dateAdded v] in
  or (or (V.vin v) (VStr (join "|" (map ToString (filter ToBoolean fields)))))
     (VStr "NA").

(** [vehicleId(v)]. *)
Definition vehicleId (v : Vehicle) : string :=
  let raw := identity v in
  if ToBoolean raw then filter_str is_alnum (ToString raw)
  else
    let h := slice0 10 (Utils.sha1Hex (ToString (seed v))) in
    "v" ++ h.

(** The callback of [.map] in [buildVDPUrl]. *)
Definition slugPart (p : value) : string :=
  strip is_hyphen (squash_runs not_alnum "-" (strip is_space (ToString p))).

Definition slug (v : Vehicle) : string :=
  let parts := [VStr "Used"; V.year v; V.make v; V.model v; V.trim v;
                VStr "for-sale-in-Greenville-NC-27858"] in
  join "-"
    (filter (fun s => negb (is_empty s))
       (map slugPart (filter ToBoolean parts))).

(** [buildVDPUrl(v)]. *)
Definition buildVDPUrl (v : Vehicle) : string :=
  "/vdp/" ++ vehicleId v ++ "/" ++ slug v ++ "/".

(** *** The inventory grid *)

Section WithHost.
Context {host : JSHost}.

(** [ToNumber(x)]. *)
Definition ToNumber (x : value) : number :=
  match x with
  | VUndefined => NaN
  | VNull => Fin 0
  | VBool b => Fin (if b then 1 else 0)
  | VNum n => Fin n
  | VStr s => StringToNumber s
  end.

(** [a < b] on numbers: false as soon as one side is [NaN]. *)
Definition lt (a b : number) : bool :=
  match a, b with
  | Fin x, Fin y => x <? y
  | _, _ => false
  end.

(** [getPriceRange(price)]. *)
Definition getPriceRange (price : value) : string :=
  if lt (ToNumber price) (Fin 10000) then "under10"
  else if lt (ToNumber price) (Fin 20000) then "10to20"
  else if lt (ToNumber price) (Fin 30000) then "20to30"
  else "over30".

(** [x === s] for a text [s]. *)
Definition strict_eq (x : value) (s : string) : bool :=
  match x with
  | VStr t => String.eqb t s
  | _ => false
  end.

(** [v.status === 'available' || !v.status]. *)
Definition statusMatch (v : Vehicle) : bool :=
  strict_eq (V.status v) "available" || negb (ToBoolean (V.status v)).

(** The time value of [new Date(x)]; out of range it is [NaN]. *)
Definition TimeClip (t : number) : number :=
  match t with
  | Fin n => if Z.abs n <=? 8640000000000000 then Fin n else NaN
  | NaN => NaN
  end.

Definition new_Date (x : value) : number :=
  match x with
  | VStr s => Date_parse s
  | _ => TimeClip (ToNumber x)
  end.

Definition sub (a b : number) : number :=
  match a, b with
  | Fin x, Fin y => Fin (x - y)
  | _, _ => NaN
  end.

(** The comparator of [getMostRecent]. *)
Definition byDateDesc (a b : Vehicle) : number :=
  let dateA := if ToBoolean (V.dateAdded a) then new_Date (V.dateAdded a)
               else Fin 0 in
  let dateB := if ToBoolean (V.dateAdded b) then new_Date (V.dateAdded b)
               else Fin 0 in
  sub dateB dateA.

(** [Array.prototype.sort]: a stable sort; a comparator result that is
    [NaN] counts as 0, and [a] stays before [b] unless the result is
    positive.  With a consistent comparator, as when every date is valid,
    the result is the one every engine gives; when some result is [NaN] the
    comparator is not consistent and the order is the engine's choice, of
    which the insertion below is one. *)
Definition after (c : number) : bool :=
  match c with
  | Fin n => 0 <? n
  | NaN => false
  end.

Fixpoint insert {A : Type} (cmp : A -> A -> number) (x : A) (l : list A)
    : list A :=
  match l with
  | [] => [x]
  | y :: l' => if after (cmp x y) then y :: insert cmp x l' else x :: l
  end.

Fixpoint sort {A : Type} (cmp : A -> A -> number) (l : list A) : list A :=
  match l with
  | [] => []
  | x :: l' => insert cmp x (sort cmp l')
  end.

(** [a.slice(0, end)]. *)
Definition slice0_list {A : Type} (en : Z) (a : list A) : list A :=
  let len := Z.of_nat (List.length a) in
  let k := if en <? 0 then Z.max (len + en) 0 else Z.min en len in
  firstn (Z.to_nat k) a.

(** [getMostRecent(vehicles)], with [limit] the field [this.limit]. *)
Definition getMostRecent (limit : number) (vehicles : list Vehicle)
    : list Vehicle :=
  let available := filter statusMatch vehicles in
  let sorted := sort byDateDesc available in
  match limit with
  | NaN => sorted
  | Fin n => slice0_list n sorted
  end.

(** [String.prototype.toLowerCase] on the code units below 256. *)
Definition lower (c : ascii) : ascii :=
  let n := code c in
  if is_upper c then chr (n + 32)
  else if (192 <=? n) && (n <=? 222) && negb (n =? 215) then chr (n + 32)
  else c.

Definition toLowerCase : string -> string := map_str lower.

(** The four conditions of the callback of [filterVehicles]. *)
Definition searchMatch (searchQuery : string) (v : Vehicle) : bool :=
  is_empty searchQuery ||
  contains (toLowerCase searchQuery)
    (toLowerCase
       (ToString (V.year v) ++ " " ++ ToString (V.make v) ++ " "
          ++ ToString (V.model v) ++ " "
          ++ ToString (or (V.trim v) (VStr "")) ++ " "
          ++ ToString (or (V.description v) (VStr "")))).

Definition typeMatch (type : string) (v : Vehicle) : bool :=
  String.eqb type "all" || strict_eq (V.type v) type.

Definition priceMatch (priceRange : string) (v : Vehicle) : bool :=
  let vehiclePriceRange := getPriceRange (V.price v) in
  String.eqb priceRange "all" || String.eqb vehiclePriceRange priceRange.

Definition matches (searchQuery type priceRange : string) (v : Vehicle)
    : bool :=
  searchMatch searchQuery v && typeMatch type v && priceMatch priceRange v
  && statusMatch v.

(** [filterVehicles(searchQuery, type, priceRange)]: the list handed to
    [renderVehicles]; [vehicles] is the field [this.vehicles]. *)
Definition filterVehicles (vehicles : list Vehicle)
    (searchQuery type priceRange : string) : list Vehicle :=
  filter (matches searchQuery type priceRange) vehicles.

End WithHost.

End Client.

(* ------------------------------------------------------------------ *)
(** ** [generate-vdp-pages.ps1]: identifier, slug and page path *)

Module Generator.
Import Text.

(** The script parameters. *)
Record Config : Type := {
  SiteUrl : string;
  City : string;
  State : string;
  Zip : string
}.

Definition defaults : Config :=
  {| SiteUrl := "https://bellsforkautoandtruck.com";
     City := "Greenville"; State := "NC"; Zip := "27858" |}.

(** Conversion to [bool], as applied by [-not] and [if]. *)
Definition truthy (x : value) : bool :=
  match x with
  | VUndefined | VNull => false
  | VBool b => b
  | VNum n => negb (n =? 0)
  | VStr s => negb (is_empty s)
  end.

(** [x.ToString()]; every call in the script is guarded against [$null]. *)
Definition ToString (x : value) : string :=
  match x with
  | VUndefined | VNull => EmptyString
  | VBool true => "True"
  | VBool false => "False"
  | VNum n => string_of_Z n
  | VStr s => s
  end.

(** The text of one element under [-join]: [$null] gives the empty text. *)
Definition join_text (x : value) : string := ToString x.

(** [Char.IsWhiteSpace], which [String.Trim()] removes. *)
Definition is_space (c : ascii) : bool :=
  let n := code c in
  ((9 <=? n) && (n <=? 13)) || (n =? 32) || (n =? 133) || (n =? 160).

Definition is_hyphen (c : ascii) : bool := code c =? 45.
Definition is_slash (c : ascii) : bool := code c =? 47.
Definition not_alnum (c : ascii) : bool := negb (is_alnum c).

(** [s.TrimEnd(c)]. *)
Definition TrimEnd : (ascii -> bool) -> string -> string := drop_while_end.

(** [[System.Text.Encoding]::UTF8.GetBytes]. *)
Definition UTF8_GetBytes : string -> list Z := Utils.utf8.

(** [SHA1.ComputeHash]: the 20 bytes of the FIPS 180 digest, the function
    that [utils.js] implements, most significant byte first. *)
Definition word_bytes (w : Z) : list Z :=
  [Z.shiftr w 24; Z.land (Z.shiftr w 16) 255; Z.land (Z.shiftr w 8) 255;
   Z.land w 255].

Definition ComputeHash (bytes : list Z) : list Z :=
  let '(h0, h1, h2, h3, h4) := Utils.digest bytes in
  word_bytes h0 ++ word_bytes h1 ++ word_bytes h2 ++ word_bytes h3
    ++ word_bytes h4.

(** [b.ToString("x2")]. *)
Definition x2 (b : Z) : string :=
  String (Utils.hexDigit (b / 16)) (String (Utils.hexDigit (b mod 16)) EmptyString).

Definition Substring0 (n : nat) (s : string) : string := substring 0 n s.

(** Lines 18-20 of [Slug-Id]: the identity field that is kept. *)
Definition identity (v : Vehicle) : value :=
  let raw := V.vehicleId v in
  let raw := if negb (truthy raw) then V.stockNumber v else raw in
  let raw := if negb (truthy raw) then V.id v else raw in
  raw.

(** Lines 24-28 of [Slug-Id]: the fallback seed. *)
Definition seed (v : Vehicle) : value :=
  let seed := V.vin v in
  if negb (truthy seed) then
    let seed :=
      VStr (join "|" (map join_text
              [V.year v; V.make v; V.model v; V.trim v;
               V.price v; V.mileage v; V.dateAdded v])) in
    if negb (truthy seed) then VStr "NA" else seed
  else seed.

(** The hexadecimal text of the digest, lines 29-31. *)
Definition hash_hex (text : string) : string :=
  let bytes := UTF8_GetBytes text in
  String.concat "" (map x2 (ComputeHash bytes)).

(** [Slug-Id]. *)
Definition Slug_Id (v : Vehicle) : string :=
  let raw := identity v in
  let raw :=
    if negb (truthy raw) then
      VStr ("v" ++ Substring0 10 (hash_hex (ToString (seed v))))
    else raw in
  filter_str is_alnum (ToString raw).

(** [Slug-Part]; [None] is [$null]. *)
Definition Slug_Part (p : value) : option string :=
  match p with
  | VUndefined | VNull => None
  | _ =>
      let s := strip is_space (ToString p) in
      if is_empty s then None
      else
        let s := strip is_hyphen (squash_runs not_alnum "-" s) in
        if is_empty s then None else Some s
  end.

Section WithConfig.
Variable cfg : Config.

(** [Slug-Tail]. *)
Definition Slug_Tail (v : Vehicle) : string :=
  let parts := [VStr "Used"; V.year v; V.make v; V.model v; V.trim v;
                VStr ("for-sale-in-" ++ City cfg ++ "-" ++ State cfg ++ "-"
                        ++ Zip cfg)] in
  let clean :=
    flat_map (fun p => match Slug_Part p with
                       | Some sp => if is_empty sp then [] else [sp]
                       | None => []
                       end) parts in
  join "-" clean.

(** [$relDir] and [$pageUrl] of the main loop. *)
Definition relDir (v : Vehicle) : string :=
  "vdp/" ++ Slug_Id v ++ "/" ++ Slug_Tail v.

Definition pagePath (v : Vehicle) : string := relDir v ++ "/".

Definition pageUrl (v : Vehicle) : string :=
  TrimEnd is_slash (SiteUrl cfg) ++ "/" ++ relDir v ++ "/".

End WithConfig.

(** *** Page assembly *)

Section Pages.
Context {host : PSHost}.
Variable cfg : Config.

(** [[int]$x]; [None] is the exception of a failed cast. *)
Definition to_int32 (x : value) : option Z :=
  match x with
  | VUndefined | VNull => Some 0
  | VBool b => Some (if b then 1 else 0)
  | VNum n =>
      if (-2147483648 <=? n) && (n <=? 2147483647) then Some n else None
  | VStr s => StringToInt32 s
  end.

Fixpoint group_rev (s : string) (k : nat) : string :=
  match s with
  | EmptyString => EmptyString
  | String c s' =>
      match k with
      | 3%nat => String "," (String c (group_rev s' 1))
      | _ => String c (group_rev s' (S k))
      end
  end.

(** [n.ToString("N0")], with the separators of the en-US culture. *)
Definition N0 (n : Z) : string :=
  (if n <? 0 then "-" else "")
    ++ rev_str (group_rev (rev_str (string_of_Z (Z.abs n))) 0).

(** [try { body } catch {}] around an assignment: the variable keeps its
    value when the body raises. *)
Definition try_assign {A : Type} (old : A) (body : option A) : A :=
  match body with
  | Some new => new
  | None => old
  end.

Definition priceStr (v : Vehicle) : string :=
  let priceStr := "Call for Price" in
  if truthy (V.price v) then
    try_assign priceStr
      (option_map (fun n => "$" ++ N0 n) (to_int32 (V.price v)))
  else priceStr.

Definition milesStr (v : Vehicle) : string :=
  let milesStr := "Mileage N/A" in
  if truthy (V.mileage v) then
    try_assign milesStr
      (option_map (fun n => N0 n ++ " miles") (to_int32 (V.mileage v)))
  else milesStr.

(** The parts of the page document that depend on the price, the mileage
    and the page address. *)
Record Page : Type := {
  canonical : string;
  price_text : string;
  miles_text : string
}.

Definition render (v : Vehicle) : Page :=
  {| canonical := pageUrl cfg v;
     price_text := priceStr v;
     miles_text := milesStr v |}.

(** *** The sitemap *)

(** One [<url>] element; [loc] is [None] when it has no [<loc>] child. *)
Record UrlNode : Type := {
  loc : option string;
  lastmod : option string;
  changefreq : option string;
  priority : option string
}.

Inductive SitemapFile : Type :=
  | Absent
  | Unparsable (content : string)
  | Sitemap (urls : list UrlNode).

Definition fold_case (c : ascii) : ascii :=
  if is_upper c then chr (code c + 32) else c.

(** [text -like pattern] for patterns made of literal characters, [*] and
    [?]; the comparison ignores case.  The escape character of a wildcard
    pattern is the backtick, so a backslash stands for itself. *)
Fixpoint like (text pattern : string) {struct pattern} : bool :=
  match pattern with
  | EmptyString => is_empty text
  | String p pattern' =>
      if Ascii.eqb p "*" then
        (fix star (t : string) : bool :=
           like t pattern' ||
           match t with
           | EmptyString => false
           | String _ t' => star t'
           end) text
      else
        match text with
        | EmptyString => false
        | String c text' =>
            (Ascii.eqb p "?" || Ascii.eqb (fold_case p) (fold_case c))
            && like text' pattern'
        end
  end.

(** The [<url>] element built for one page address. *)
Definition fresh_node (today u : string) : UrlNode :=
  {| loc := Some u; lastmod := Some today; changefreq := Some "weekly";
     priority := Some "0.6" |}.

(** [Update-Sitemap], on the content of [sitemap.xml]. *)
Definition Update_Sitemap (today : string) (VdpUrls : list string)
    (file : SitemapFile) : SitemapFile :=
  match file with
  | Absent => Absent
  | Unparsable content => Unparsable content
  | Sitemap urls =>
      let kept :=
        filter (fun u => match loc u with
                         | Some text => negb (like text "*\/vdp\/*")
                         | None => true
                         end) urls in
      let fresh := map (fresh_node today) VdpUrls in
      Sitemap (kept ++ fresh)
  end.

(** *** One run of the script *)

Record Loop : Type := {
  written : list (string * Page);
  vdpUrls : list string;
  count : Z
}.

(** The body of [foreach ($v in $data.vehicles)]; [outPath] is the file
    written, relative to [$OutDir]. *)
Definition body (st : Loop) (v : Vehicle) : Loop :=
  let outPath := relDir cfg v ++ "/index.html" in
  {| written := written st ++ [(outPath, render v)];
     vdpUrls := vdpUrls st ++ [pageUrl cfg v];
     count := count st + 1 |}.

Inductive Outcome : Type :=
  | Exit1 (message : string)
  | Generated (pages : list (string * Page)) (sitemap : SitemapFile)
      (count : Z).

(** The script; [inventory] is [None] when the file does not exist, and
    [vehicles] is the decoded [vehicles] property ([None] when missing). *)
Definition run (NoUpdateSitemap : bool) (today : string)
    (inventory : option (option (list Vehicle))) (sitemap : SitemapFile)
    : Outcome :=
  match inventory with
  | None => Exit1 "Inventory file not found"
  | Some None | Some (Some []) => Exit1 "inventory.json missing vehicles[]"
  | Some (Some vehicles) =>
      let st := fold_left body vehicles
                  {| written := []; vdpUrls := []; count := 0 |} in
      let sitemap' :=
        if negb NoUpdateSitemap then Update_Sitemap today (vdpUrls st) sitemap
        else sitemap in
      Generated (written st) sitemap' (count st)
  end.

End Pages.

End Generator.

(* ------------------------------------------------------------------ *)
(** ** Concrete built-ins and records, for evaluation *)

Module Sample.
Import Text.

Fixpoint digits_value (s : string) (acc : Z) : option Z :=
  match s with
  | EmptyString => Some acc
  | String c s' =>
      if is_digit c then digits_value s' (10 * acc + (code c - 48)) else None
  end.

(** A decimal integer literal with an optional sign, white space around it
    ignored; [blank] is the reading of the empty text. *)
Definition decimal (blank : option Z) (s : string) : option Z :=
  match strip Client.is_space s with
  | EmptyString => blank
  | String c rest =>
      if Ascii.eqb c "-" then
        if is_empty rest then None
        else option_map Z.opp (digits_value rest 0)
      else if Ascii.eqb c "+" then
        if is_empty rest then None else digits_value rest 0
      else digits_value (String c rest) 0
  end.

Definition to_number (r : option Z) : number :=
  match r with
  | Some n => Fin n
  | None => NaN
  end.

Definition leap (y : Z) : bool :=
  ((y mod 4 =? 0) && negb (y mod 100 =? 0)) || (y mod 400 =? 0).

Definition days_in_month (y m : Z) : Z :=
  if m =? 2 then (if leap y then 29 else 28)
  else if (m =? 4) || (m =? 6) || (m =? 9) || (m =? 11) then 30
  else 31.

(** Days from 1970-01-01 to the day [d] of the month [m] of the year [y]. *)
Definition days_from_civil (y m d : Z) : Z :=
  let y' := if m <=? 2 then y - 1 else y in
  let era := y' / 400 in
  let yoe := y' - era * 400 in
  let doy := (153 * (if 2 <? m then m - 3 else m + 9) + 2) / 5 + d - 1 in
  let doe := yoe * 365 + yoe / 4 - yoe / 100 + doy in
  era * 146097 + doe - 719468.

(** The calendar dates [YYYY-MM-DD], read as midnight UTC. *)
Definition iso_date (s : string) : number :=
  match digits_value (substring 0 4 s) 0, digits_value (substring 5 2 s) 0,
        digits_value (substring 8 2 s) 0 with
  | Some y, Some m, Some d =>
      if Nat.eqb (String.length s) 10
         && String.eqb (substring 4 1 s) "-" && String.eqb (substring 7 1 s) "-"
         && (1 <=? m) && (m <=? 12) && (1 <=? d) && (d <=? days_in_month y m)
      then Fin (days_from_civil y m d * 86400000)
      else NaN
  | _, _, _ => NaN
  end.

(** One reading of the built-ins, for evaluation on decimal integers and on
    the calendar dates of existing days, which every engine reads this way.
    Every other text is [NaN] here, or rejected by the cast; an engine may
    read more of them (other numeric literals, a day past the end of its
    month). *)
#[export] Instance js : JSHost :=
  {| StringToNumber := fun s => to_number (decimal (Some 0) s);
     Date_parse := iso_date |}.

#[export] Instance ps : PSHost :=
  {| StringToInt32 := fun s =>
       match decimal (Some 0) s with
       | Some n =>
           if (-2147483648 <=? n) && (n <=? 2147483647) then Some n else None
       | None => None
       end |}.

(** The record of the end-to-end example. *)
Definition f150 : Vehicle :=
  V.mk VUndefined (VStr "A1234") VUndefined (VStr "1FTEW1EP0LKE12345")
    (VNum 2020) (VStr "Ford") (VStr "F-150") (VStr "XLT") (VNum 28500)
    (VNum 45000) (VNum 1700000000000) (VStr "truck") VUndefined VUndefined.

(** No identity field, no VIN: only a year and a make. *)
Definition year_make_only : Vehicle :=
  V.mk VUndefined VUndefined VUndefined VUndefined (VNum 2020) (VStr "Ford")
    VUndefined VUndefined VUndefined VUndefined VUndefined VUndefined
    VUndefined VUndefined.

(** A [vehicleId] of three spaces, and a stock number. *)
Definition blank_vehicleId : Vehicle :=
  V.with_vehicleId (VStr "   ") f150.

(** A [vehicleId] without any letter or digit. *)
Definition dashes : Vehicle := V.with_vehicleId (VStr "---") V.empty.

(** The VIN entered as the stock number too. *)
Definition vin_as_stock : Vehicle :=
  V.with_stockNumber (VStr "1FTEW1EP0LKE12345") f150.

Definition sold : Vehicle := V.with_status (VStr "sold") f150.

(** A record with the given [stockNumber], [dateAdded] and [status]. *)
Definition dated (stock date : string) (status : value) : Vehicle :=
  V.mk VUndefined (VStr stock) VUndefined VUndefined (VNum 2021)
    (VStr "Honda") (VStr "Civic") VUndefined (VNum 18500) (VNum 30000)
    (VStr date) (VStr "car") VUndefined status.

End Sample.
Import Sample.

(* ------------------------------------------------------------------ *)
(** ** Notions used by the statements *)

Module Notions.
Import Text.

(** The five words of a SHA-1 state are 32-bit values. *)
Definition word32 (w : Z) : Prop := 0 <= w < 4294967296.

Definition state32 (h : Utils.State) : Prop :=
  let '(a, b, c, d, e) := h in
  word32 a /\ word32 b /\ word32 c /\ word32 d /\ word32 e.

Definition byte (b : Z) : Prop := 0 <= b < 256.

(** The [k] low hexadecimal digits of [n], put in front of [acc]. *)
Fixpoint hexfix (k : nat) (n : Z) (acc : string) : string :=
  match k with
  | O => acc
  | S k' => hexfix k' (n / 16) (String (Utils.hexDigit (n mod 16)) acc)
  end.

(** The first of [vehicleId], [stockNumber], [id] that is truthy, and [id]
    when none is. *)
Definition first_truthy (v : Vehicle) : value :=
  if Client.ToBoolean (V.vehicleId v) then V.vehicleId v
  else if Client.ToBoolean (V.stockNumber v) then V.stockNumber v
  else V.id v.

(** A vehicle identification number: 17 letters or digits. *)
Definition well_formed_vin (s : string) : bool :=
  Nat.eqb (String.length s) 17 && forallb_str is_alnum s.

(** [needle] occurs in the text or in the digits of a field. *)
Definition mentions (needle : string) (x : value) : bool :=
  match x with
  | VStr s => contains needle s
  | VNum n => contains needle (string_of_Z n)
  | _ => false
  end.

(** [needle] occurs in the identity field that is kept, once the characters
    other than letters and digits are removed from it. *)
Definition identity_mentions (needle : string) (v : Vehicle) : bool :=
  match first_truthy v with
  | VStr s => contains needle (filter_str is_alnum s)
  | VNum n => contains needle (filter_str is_alnum (string_of_Z n))
  | _ => false
  end.

(** [needle] occurs in an input of the page address other than [vin]. *)
Definition occurs_elsewhere (needle : string) (cfg : Generator.Config)
    (v : Vehicle) : bool :=
  contains needle (Generator.SiteUrl cfg)
  || contains needle (Generator.City cfg)
  || contains needle (Generator.State cfg)
  || contains needle (Generator.Zip cfg)
  || mentions needle (V.year v) || mentions needle (V.make v)
  || mentions needle (V.model v) || mentions needle (V.trim v)
  || identity_mentions needle v.

Definition is_backslash (c : ascii) : bool := code c =? 92.

Definition not_backslash (c : ascii) : bool := negb (is_backslash c).

(** The characters of a slug: letters, digits and the hyphen. *)
Definition slug_char (c : ascii) : bool := is_alnum c || Generator.is_hyphen c.

(** No [<loc>] of the sitemap has a backslash. *)
Definition plain_locs (urls : list Generator.UrlNode) : Prop :=
  forall u text, In u urls -> Generator.loc u = Some text ->
    existsb_str is_backslash text = false.

(** The number of [<url>] elements whose [<loc>] is [url]. *)
Definition entries_at (url : string) (urls : list Generator.UrlNode) : nat :=
  List.length
    (filter (fun u => match Generator.loc u with
                      | Some text => String.eqb text url
                      | None => false
                      end) urls).

(** The sitemap of the site before the first run: the home page. *)
Definition home_only : list Generator.UrlNode :=
  [ {| Generator.loc := Some "https://bellsforkautoandtruck.com/";
       Generator.lastmod := Some "2026-01-05";
       Generator.changefreq := Some "monthly";
       Generator.priority := Some "1.0" |} ].


End Notions.

(* ------------------------------------------------------------------ *)
(** ** The identity rule in the words of the specification *)

Module Spec.
Import Text.

Definition text (x : value) : string :=
  match x with
  | VUndefined | VNull => EmptyString
  | _ => Client.ToString x
  end.

(** "Non-empty after stripping whitespace". *)
Definition non_blank (x : value) : bool :=
  negb (is_empty (strip Client.is_space (text x))).

(** "Try, in order: vehicleId, stockNumber, id.  Take the first value that
    is non-empty after stripping whitespace." *)
Definition identity (v : Vehicle) : option value :=
  find non_blank [V.vehicleId v; V.stockNumber v; V.id v].

End Spec.

(* ------------------------------------------------------------------ *)
(** ** Notions used by the further properties *)

Module Shapes.
Import Text.

(** A lowercase hexadecimal digit. *)
Definition is_hex (c : ascii) : bool :=
  is_digit c || ((97 <=? code c) && (code c <=? 102)).

(** The value of a hexadecimal digit, and of a hexadecimal text read from the
    left onto [acc]. *)
Definition hex_digit_value (c : ascii) : Z :=
  if is_digit c then code c - 48 else code c - 87.

Fixpoint hex_value_onto (s : string) (acc : Z) : Z :=
  match s with
  | EmptyString => acc
  | String c s' => hex_value_onto s' (16 * acc + hex_digit_value c)
  end.

Definition hex_value (s : string) : Z := hex_value_onto s 0.

(** The sanitization shared by [Slug-Part] and the [.map] callback of
    [buildVDPUrl], after their trimming of white space. *)
Definition clean (s : string) : string :=
  strip Generator.is_hyphen (squash_runs Generator.not_alnum "-" s).

(** Runs of letters and digits separated by single hyphens: [after_hyphen]
    tells that the text so far is empty or ends with a hyphen. *)
Fixpoint tidy_from (after_hyphen : bool) (s : string) : bool :=
  match s with
  | EmptyString => negb after_hyphen
  | String c s' =>
      if Generator.is_hyphen c then negb after_hyphen && tidy_from true s'
      else is_alnum c && tidy_from false s'
  end.

Definition tidy (s : string) : bool := tidy_from true s.

(** The shape of a slug: it begins with [Used], is made of letters, digits
    and hyphens, and has no hyphen at either end and no two hyphens in a
    row. *)
Definition slug_shaped (s : string) : Prop :=
  starts_with "Used" s = true
  /\ forallb_str (fun c => is_alnum c || Generator.is_hyphen c) s = true
  /\ contains "--" s = false
  /\ starts_with "-" s = false
  /\ drop_while_end Generator.is_hyphen s = s.

(** A field that both runtimes hold exactly: a number is a JavaScript
    double in the loader and an integer in the generator, which are the same
    number, printed with the same digits, up to 2^53 - 1 in magnitude. *)
Definition exact (x : value) : bool :=
  match x with
  | VNum n => Z.abs n <=? 9007199254740991
  | _ => true
  end.

(** The fields that the page address is built from are held exactly. *)
Definition exact_address_inputs (v : Vehicle) : bool :=
  exact (V.year v) && exact (V.make v) && exact (V.model v)
  && exact (V.trim v) && exact (Notions.first_truthy v).

(** A field that both runtimes print alike and both keep or both drop: a
    text, a positive integer up to 2^53 - 1, or nothing. *)
Definition plain (x : value) : bool :=
  match x with
  | VBool _ => false
  | VNum n => (0 <? n) && (n <=? 9007199254740991)
  | _ => true
  end.

(** The records on which the two identifier functions read the same text:
    the identity field that is kept is plain; or there is none and [vin] is
    truthy and plain; or there is neither and the seven fallback fields are
    all truthy and plain. *)
Definition same_identifier_inputs (v : Vehicle) : bool :=
  if Client.ToBoolean (Notions.first_truthy v) then plain (Notions.first_truthy v)
  else if Client.ToBoolean (V.vin v) then plain (V.vin v)
  else forallb (fun x => Client.ToBoolean x && plain x)
         [V.year v; V.make v; V.model v; V.trim v;
          V.price v; V.mileage v; V.dateAdded v].

Section Dates.
Context {host : JSHost}.

(** The time value that the comparator of [getMostRecent] gives a record:
    that of [new Date(v.dateAdded)], or 0 when [dateAdded] is falsy. *)
Definition time_value (v : Vehicle) : number :=
  if Client.ToBoolean (V.dateAdded v) then Client.new_Date (V.dateAdded v)
  else Fin 0.

(** Both records have a valid date and [a] is not older than [b]. *)
Definition not_older (a b : Vehicle) : Prop :=
  exists ta tb, time_value a = Fin ta /\ time_value b = Fin tb /\ tb <= ta.

End Dates.

(** The four price ranges of the filter. *)
Definition buckets : list string := ["under10"; "10to20"; "20to30"; "over30"].

(** The parameters with another [-SiteUrl]. *)
Definition with_SiteUrl (url : string) (cfg : Generator.Config)
    : Generator.Config :=
  {| Generator.SiteUrl := url; Generator.City := Generator.City cfg;
     Generator.State := Generator.State cfg; Generator.Zip := Generator.Zip cfg |}.

Definition same_slug_inputs (v : Vehicle) : bool :=
  plain (V.year v) && plain (V.make v) && plain (V.model v) && plain (V.trim v).

(** A character of a [-like] pattern that stands for itself. *)
Definition literal (c : ascii) : bool :=
  negb (Ascii.eqb c "*") && negb (Ascii.eqb c "?").

End Shapes.

(* ================================================================== *)
(** * Properties *)

(** ** The model on known values *)

Section KnownValues.

(** The FIPS 180 test vectors of SHA-1. *)
Example sha1Hex_abc :
  Utils.sha1Hex "abc" = "a9993e364706816aba3e25717850c26c9cd0d89d".
Proof. vm_compute. reflexivity. Qed.

Example sha1Hex_empty :
  Utils.sha1Hex "" = "da39a3ee5e6b4b0d3255bfef95601890afd80709".
Proof. vm_compute. reflexivity. Qed.

Example sha1Hex_two_blocks :
  Utils.sha1Hex "abcdbcdecdefdefgefghfghighijhijkijkljklmklmnlmnomnopnopq"
  = "84983e441c3bd26ebaae4aa1f95129e5e54670f1".
Proof. vm_compute. reflexivity. Qed.

(** The end-to-end example of the specification. *)
Example f150_identifier :
  Client.vehicleId f150 = "A1234" /\ Generator.Slug_Id f150 = "A1234".
Proof. split; vm_compute; reflexivity. Qed.

Example f150_slug :
  Generator.Slug_Tail Generator.defaults f150
  = "Used-2020-Ford-F-150-XLT-for-sale-in-Greenville-NC-27858"
  /\ Client.slug f150
     = "Used-2020-Ford-F-150-XLT-for-sale-in-Greenville-NC-27858".
Proof. split; vm_compute; reflexivity. Qed.

Example f150_path :
  Generator.pagePath Generator.defaults f150
  = "vdp/A1234/Used-2020-Ford-F-150-XLT-for-sale-in-Greenville-NC-27858/"
  /\ Client.buildVDPUrl f150
     = "/vdp/A1234/Used-2020-Ford-F-150-XLT-for-sale-in-Greenville-NC-27858/".
Proof. split; vm_compute; reflexivity. Qed.

Example f150_page :
  Generator.render Generator.defaults f150
  = {| Generator.canonical :=
         "https://bellsforkautoandtruck.com/vdp/A1234/Used-2020-Ford-F-150-XLT-for-sale-in-Greenville-NC-27858/";
       Generator.price_text := "$28,500";
       Generator.miles_text := "45,000 miles" |}.
Proof. vm_compute. reflexivity. Qed.

Example Date_parse_sample :
  Date_parse "2024-01-15" = Fin 1705276800000
  /\ Date_parse "1970-01-01" = Fin 0
  /\ Date_parse "soon" = NaN.
Proof. repeat split; vm_compute; reflexivity. Qed.

(** Newest first, records without a usable status dropped, ties and
    records without date in their input order. *)
Example getMostRecent_sample :
  map V.stockNumber
    (Client.getMostRecent NaN
       [dated "A" "2024-01-15" VUndefined; dated "B" "2024-03-01" (VStr "sold");
        dated "C" "2024-02-10" (VStr "available"); dated "D" "" VUndefined;
        dated "E" "2024-02-10" VUndefined])
  = [VStr "C"; VStr "E"; VStr "A"; VStr "D"]
  /\ map V.stockNumber
       (Client.getMostRecent (Fin 2)
          [dated "A" "2024-01-15" VUndefined; dated "C" "2024-02-10" VUndefined])
     = [VStr "C"; VStr "A"].
Proof. split; vm_compute; reflexivity. Qed.

Example like_is_literal_on_backslash :
  Generator.like "https://bellsforkautoandtruck.com/vdp/A1234/" "*\/vdp\/*"
  = false
  /\ Generator.like "C:\/VDP\/old" "*\/vdp\/*" = true.
Proof. split; vm_compute; reflexivity. Qed.

End KnownValues.

(** ** Texts *)

Section TextFacts.
Import Text.
Variable p : ascii -> bool.

Lemma forallb_str_app (a b : string) :
  forallb_str p (a ++ b) = forallb_str p a && forallb_str p b.
Proof.
  induction a as [|c a IH]; simpl; [reflexivity|].
  now rewrite IH, andb_assoc.
Qed.

Lemma forallb_filter_str (s : string) : forallb_str p (filter_str p s) = true.
Proof.
  induction s as [|c s IH]; simpl; [reflexivity|].
  destruct (p c) eqn:E; simpl; [rewrite E|]; exact IH.
Qed.

Lemma filter_str_all (s : string) :
  forallb_str p s = true -> filter_str p s = s.
Proof.
  induction s as [|c s IH]; simpl; [reflexivity|].
  intros H. apply andb_true_iff in H as [Hc Hs].
  now rewrite Hc, IH.
Qed.

Lemma is_empty_filter_str (s : string) :
  is_empty (filter_str p s) = negb (existsb_str p s).
Proof.
  induction s as [|c s IH]; simpl; [reflexivity|].
  destruct (p c); simpl; [reflexivity | exact IH].
Qed.

Lemma forallb_substring (s : string) : forall (i n : nat),
  forallb_str p s = true -> forallb_str p (substring i n s) = true.
Proof.
  induction s as [|c s IH]; intros i n H; simpl in *.
  - destruct i, n; reflexivity.
  - apply andb_true_iff in H as [Hc Hs].
    destruct i; [destruct n|]; simpl; auto.
    now rewrite Hc, IH.
Qed.

Lemma forallb_repeat_str (c : ascii) (n : nat) :
  p c = true -> forallb_str p (Utils.repeat_str c n) = true.
Proof.
  intros Hc. induction n as [|n IH]; simpl; [reflexivity|].
  now rewrite Hc, IH.
Qed.

Lemma forallb_drop_while (q : ascii -> bool) (s : string) :
  forallb_str p s = true -> forallb_str p (drop_while q s) = true.
Proof.
  induction s as [|c s IH]; [trivial|].
  cbn [drop_while]. destruct (q c); [|trivial].
  cbn [forallb_str]. intros H. apply andb_true_iff in H as [_ H]. auto.
Qed.

Lemma forallb_drop_while_end (q : ascii -> bool) (s : string) :
  forallb_str p s = true -> forallb_str p (drop_while_end q s) = true.
Proof.
  induction s as [|c s IH]; [trivial|].
  cbn [drop_while_end forallb_str]. intros H.
  apply andb_true_iff in H as [Hc H].
  destruct (is_empty (drop_while_end q s) && q c); [reflexivity|].
  cbn [forallb_str]. now rewrite Hc, IH.
Qed.

Lemma forallb_strip (q : ascii -> bool) (s : string) :
  forallb_str p s = true -> forallb_str p (strip q s) = true.
Proof.
  intros H. unfold strip. now apply forallb_drop_while_end, forallb_drop_while.
Qed.

Lemma forallb_squash (q : ascii -> bool) (r : ascii) :
  p r = true -> (forall c, q c = false -> p c = true) ->
  forall (s : string) (in_run : bool),
    forallb_str p (squash_from in_run q r s) = true.
Proof.
  intros Hr Hq. induction s as [|c s IH]; intros in_run; [reflexivity|].
  cbn [squash_from]. destruct (q c) eqn:E.
  - destruct in_run; [apply IH|]. cbn [forallb_str]. now rewrite Hr, IH.
  - cbn [forallb_str]. now rewrite (Hq c E), IH.
Qed.

Lemma forallb_join (c : ascii) (l : list string) :
  p c = true -> Forall (fun s => forallb_str p s = true) l ->
  forallb_str p (join (String c EmptyString) l) = true.
Proof.
  intros Hc. induction 1 as [|s l Hs Hl IH]; [reflexivity|].
  destruct l as [|s' l]; [exact Hs|].
  change (join (String c EmptyString) (s :: s' :: l))
    with (s ++ String c (join (String c EmptyString) (s' :: l))).
  rewrite forallb_str_app, Hs. cbn [forallb_str]. now rewrite Hc, IH.
Qed.

Lemma forallb_str_weaken (q : ascii -> bool) (s : string) :
  (forall c, p c = true -> q c = true) ->
  forallb_str p s = true -> forallb_str q s = true.
Proof.
  intros Hpq. induction s as [|c s IH]; [trivial|].
  cbn [forallb_str]. intros H. apply andb_true_iff in H as [Hc H].
  now rewrite (Hpq c Hc), IH.
Qed.

Lemma existsb_forallb (s : string) :
  existsb_str p s = negb (forallb_str (fun c => negb (p c)) s).
Proof.
  induction s as [|c s IH]; [reflexivity|].
  cbn [existsb_str forallb_str]. rewrite IH. now destruct (p c).
Qed.

End TextFacts.

Lemma length_substring0 (s : string) : forall n : nat,
  String.length (substring 0 n s) = Nat.min n (String.length s).
Proof.
  induction s as [|c s IH]; intros [|n]; simpl; auto.
Qed.

Lemma length_app_str (a b : string) :
  String.length (a ++ b) = (String.length a + String.length b)%nat.
Proof.
  induction a as [|c a IH]; simpl; [reflexivity | now rewrite IH].
Qed.

Lemma length_repeat_str (c : ascii) (n : nat) :
  String.length (Utils.repeat_str c n) = n.
Proof.
  induction n as [|n IH]; simpl; [reflexivity | now rewrite IH].
Qed.

(** ** Occurrences of one text in another *)

Section Occurrences.
Import Text.

Lemma app_str_assoc (a b c : string) : (a ++ b) ++ c = a ++ (b ++ c).
Proof. induction a as [|x a IH]; simpl; [reflexivity | now rewrite IH]. Qed.

Lemma starts_with_length (n : string) : forall h : string,
  starts_with n h = true -> (String.length n <= String.length h)%nat.
Proof.
  induction n as [|a n IH]; intros [|b h]; simpl; try lia; try discriminate.
  intros H. apply andb_true_iff in H as [_ H]. apply IH in H. lia.
Qed.

Lemma contains_length (n h : string) :
  contains n h = true -> (String.length n <= String.length h)%nat.
Proof.
  induction h as [|b h IH]; simpl; intros H.
  - rewrite orb_false_r in H. now apply starts_with_length in H.
  - apply orb_true_iff in H as [H | H].
    + now apply starts_with_length in H.
    + apply IH in H. lia.
Qed.

Lemma contains_empty_needle (h : string) : contains EmptyString h = true.
Proof. destruct h; reflexivity. Qed.

Lemma contains_in_empty (n : string) :
  contains n EmptyString = true -> n = EmptyString.
Proof. destruct n; [reflexivity | discriminate]. Qed.

Lemma contains_cons (n : string) (c : ascii) (h : string) :
  contains n h = true -> contains n (String c h) = true.
Proof. intros H. cbn [contains]. rewrite H. apply orb_true_r. Qed.

(** The needle is made of characters that satisfy [q]. *)
Variable q : ascii -> bool.

Lemma starts_with_before (n : string) : forall (a : string) (c : ascii) (b : string),
  forallb_str q n = true -> q c = false ->
  starts_with n (a ++ String c b) = true -> starts_with n a = true.
Proof.
  induction n as [|d n IH]; intros a c b Hn Hc H; [reflexivity|].
  cbn [forallb_str] in Hn. apply andb_true_iff in Hn as [Hd Hn].
  destruct a as [|e a]; cbn [append starts_with] in *.
  - apply andb_true_iff in H as [H _]. apply Ascii.eqb_eq in H. congruence.
  - apply andb_true_iff in H as [He H]. rewrite He.
    exact (IH a c b Hn Hc H).
Qed.

(** An occurrence cannot straddle a character that the needle lacks. *)
Lemma contains_split (n : string) (c : ascii) (b : string) : forall a : string,
  forallb_str q n = true -> q c = false ->
  contains n (a ++ String c b) = true ->
  contains n a = true \/ contains n b = true.
Proof.
  intros a Hn Hc. induction a as [|e a IH]; intros H.
  - cbn [append contains] in H. apply orb_true_iff in H as [H | H].
    + left. apply (starts_with_before n EmptyString c b Hn Hc) in H.
      destruct n; [reflexivity | discriminate].
    + now right.
  - cbn [append contains] in H. apply orb_true_iff in H as [H | H].
    + left. apply (starts_with_before n (String e a) c b Hn Hc) in H.
      cbn [contains]. now rewrite H.
    + destruct (IH H) as [Ha | Hb]; [left; now apply contains_cons | now right].
Qed.

Lemma contains_join (n : string) (c : ascii) (l : list string) :
  forallb_str q n = true -> q c = false -> n <> EmptyString ->
  contains n (join (String c EmptyString) l) = true ->
  exists x, In x l /\ contains n x = true.
Proof.
  intros Hn Hc Hne. induction l as [|s l IH]; intros H.
  - apply contains_in_empty in H. contradiction.
  - destruct l as [|s' l].
    + exists s. split; [now left | exact H].
    + change (join (String c EmptyString) (s :: s' :: l))
        with (s ++ String c (join (String c EmptyString) (s' :: l))) in H.
      apply (contains_split n c _ s Hn Hc) in H as [H | H].
      * exists s. split; [now left | exact H].
      * destruct (IH H) as (x & Hx & Hc'). exists x. split; [now right | exact Hc'].
Qed.

Variable p : ascii -> bool.

Lemma contains_drop_while (n s : string) :
  contains n (drop_while p s) = true -> contains n s = true.
Proof.
  induction s as [|c s IH]; [trivial|].
  cbn [drop_while]. destruct (p c); [|trivial].
  intros H. apply contains_cons. now apply IH.
Qed.

Lemma starts_with_drop_while_end (s : string) : forall n : string,
  starts_with n (drop_while_end p s) = true -> starts_with n s = true.
Proof.
  induction s as [|c s IH]; intros n; [trivial|].
  cbn [drop_while_end].
  destruct (is_empty (drop_while_end p s) && p c).
  - destruct n; [reflexivity | discriminate].
  - destruct n as [|d n]; [reflexivity|]. cbn [starts_with].
    intros H. apply andb_true_iff in H as [Hd H].
    now rewrite Hd, (IH n H).
Qed.

Lemma contains_drop_while_end (n s : string) :
  contains n (drop_while_end p s) = true -> contains n s = true.
Proof.
  induction s as [|c s IH]; [trivial|].
  intros H.
  pose proof (starts_with_drop_while_end (String c s) n) as Hs.
  cbn [drop_while_end] in H, Hs.
  destruct (is_empty (drop_while_end p s) && p c).
  - apply contains_in_empty in H. subst n. reflexivity.
  - cbn [contains] in H. apply orb_true_iff in H as [H | H].
    + cbn [contains]. now rewrite (Hs H).
    + apply contains_cons. now apply IH.
Qed.

Lemma contains_strip (n s : string) :
  contains n (strip p s) = true -> contains n s = true.
Proof.
  unfold strip. intros H.
  now apply contains_drop_while, contains_drop_while_end.
Qed.

(** Runs of characters that satisfy [p] are replaced by [r], which the
    needle lacks: an occurrence in the result is an occurrence in the
    source. *)
Variable r : ascii.
Hypothesis q_r : q r = false.

Lemma starts_with_squash (s : string) : forall n : string,
  forallb_str q n = true ->
  starts_with n (squash_from false p r s) = true -> starts_with n s = true.
Proof.
  induction s as [|c s IH]; intros n Hn; [trivial|].
  destruct n as [|d n]; [reflexivity|].
  cbn [forallb_str] in Hn. apply andb_true_iff in Hn as [Hd Hn].
  cbn [squash_from]. destruct (p c); cbn [starts_with]; intros H;
    apply andb_true_iff in H as [He H].
  - apply Ascii.eqb_eq in He. congruence.
  - now rewrite He, (IH n Hn H).
Qed.

Lemma contains_squash (n : string) :
  forallb_str q n = true -> n <> EmptyString ->
  forall (s : string) (in_run : bool),
    contains n (squash_from in_run p r s) = true -> contains n s = true.
Proof.
  intros Hn Hne. induction s as [|c s IH]; intros in_run; [trivial|].
  cbn [squash_from]. destruct (p c) eqn:Ep.
  - destruct in_run.
    + intros H. apply contains_cons. exact (IH true H).
    + cbn [contains]. intros H. apply orb_true_iff in H as [H | H].
      * destruct n as [|d n]; [congruence|].
        cbn [forallb_str] in Hn. apply andb_true_iff in Hn as [Hd _].
        cbn [starts_with] in H. apply andb_true_iff in H as [He _].
        apply Ascii.eqb_eq in He. congruence.
      * rewrite (IH true H). apply orb_true_r.
  - intros H. cbn [contains] in H. apply orb_true_iff in H as [H | H].
    + pose proof (starts_with_squash (String c s) n Hn) as Hs.
      cbn [squash_from] in Hs. rewrite Ep in Hs.
      cbn [contains]. now rewrite (Hs H).
    + apply contains_cons. exact (IH false H).
Qed.

End Occurrences.

(** ** Hexadecimal texts *)

Section HexFacts.
Import Text Utils.

Lemma hexDigit_alnum (d : Z) : 0 <= d < 16 -> is_alnum (hexDigit d) = true.
Proof.
  intros H.
  assert (E : d = 0 \/ d = 1 \/ d = 2 \/ d = 3 \/ d = 4 \/ d = 5 \/ d = 6
              \/ d = 7 \/ d = 8 \/ d = 9 \/ d = 10 \/ d = 11 \/ d = 12
              \/ d = 13 \/ d = 14 \/ d = 15) by lia.
  repeat (destruct E as [-> | E]; [reflexivity|]).
  now subst d.
Qed.

Lemma toString16_loop_alnum (fuel : nat) : forall (n : Z) (acc : string),
  forallb_str is_alnum acc = true ->
  forallb_str is_alnum (toString16_loop fuel n acc) = true.
Proof.
  induction fuel as [|fuel IH]; intros n acc Hacc; simpl; [exact Hacc|].
  assert (Hd : forallb_str is_alnum (String (hexDigit (n mod 16)) acc) = true).
  { simpl. rewrite hexDigit_alnum, Hacc; [reflexivity|].
    apply Z.mod_pos_bound. lia. }
  destruct (n / 16 =? 0); [exact Hd | now apply IH].
Qed.

(** Each turn of the loop adds one digit, and [k] digits are enough below
    [16^k]. *)
Lemma toString16_loop_length (fuel : nat) : forall (n : Z) (acc : string) (k : nat),
  0 <= n < 16 ^ Z.of_nat (S k) ->
  (String.length acc < String.length (toString16_loop (S fuel) n acc)
     <= String.length acc + S k)%nat.
Proof.
  induction fuel as [|fuel IH]; intros n acc k Hn.
  - simpl. destruct (n / 16 =? 0); simpl; lia.
  - change (toString16_loop (S (S fuel)) n acc)
      with (let acc' := String (hexDigit (n mod 16)) acc in
            if n / 16 =? 0 then acc'
            else toString16_loop (S fuel) (n / 16) acc').
    cbv zeta. destruct (n / 16 =? 0) eqn:E; [simpl; lia|].
    apply Z.eqb_neq in E.
    destruct k as [|k].
    + exfalso. apply E. apply Z.div_small. simpl in Hn. lia.
    + specialize (IH (n / 16) (String (hexDigit (n mod 16)) acc) k).
      change (String.length (String (hexDigit (n mod 16)) acc))
        with (S (String.length acc)) in IH.
      assert (Hq : 0 <= n / 16 < 16 ^ Z.of_nat (S k)).
      { split; [apply Z.div_pos; lia|].
        apply Z.div_lt_upper_bound; [lia|].
        replace (16 * 16 ^ Z.of_nat (S k)) with (16 ^ Z.of_nat (S (S k)));
          [lia|].
        rewrite (Nat2Z.inj_succ (S k)), Z.pow_succ_r; lia. }
      specialize (IH Hq). lia.
Qed.

Lemma int32_range (x : Z) : 0 <= int32 x < 4294967296.
Proof. unfold int32. apply Z.mod_pos_bound. lia. Qed.

Lemma toHex_length (i : Z) : String.length (toHex i) = 8%nat.
Proof.
  unfold toHex, padStart, toString16.
  pose proof (int32_range i) as Hr.
  pose proof (toString16_loop_length (Z.to_nat (Z.log2 (int32 i)))
                (int32 i) EmptyString 7) as HL.
  change (16 ^ Z.of_nat 8) with 4294967296 in HL.
  change (String.length EmptyString) with 0%nat in HL.
  specialize (HL Hr).
  rewrite length_app_str, length_repeat_str. lia.
Qed.

Lemma toHex_alnum (i : Z) : forallb_str is_alnum (toHex i) = true.
Proof.
  unfold toHex, padStart, toString16.
  rewrite forallb_str_app, forallb_repeat_str by reflexivity.
  now rewrite toString16_loop_alnum.
Qed.

(** The digest text has 40 characters, all of them letters or digits. *)
Lemma sha1Hex_length (msg : string) : String.length (sha1Hex msg) = 40%nat.
Proof.
  unfold sha1Hex. destruct (digest (utf8 msg)) as [[[[h0 h1] h2] h3] h4].
  now rewrite !length_app_str, !toHex_length.
Qed.

Lemma sha1Hex_alnum (msg : string) : forallb_str is_alnum (sha1Hex msg) = true.
Proof.
  unfold sha1Hex. destruct (digest (utf8 msg)) as [[[[h0 h1] h2] h3] h4].
  now rewrite !forallb_str_app, !toHex_alnum.
Qed.

End HexFacts.

(** ** The digest of the generator *)

Section DigestFacts.
Import Text Utils Notions.

Lemma block_state32 (words : list Z) (i : nat) (h : State) :
  state32 (block words i h).
Proof.
  unfold block. destruct h as [[[[h0 h1] h2] h3] h4].
  destruct (rounds (schedule words i) 0 (h0, h1, h2, h3, h4))
    as [[[[a b] c] d] e].
  repeat split; apply int32_range.
Qed.

Lemma blocks_state32 (n : nat) : forall (words : list Z) (i : nat) (h : State),
  state32 h -> state32 (blocks n words i h).
Proof.
  induction n as [|n IH]; intros words i h Hh; simpl; [exact Hh|].
  apply IH, block_state32.
Qed.

Lemma digest_state32 (bytes : list Z) : state32 (digest bytes).
Proof.
  unfold digest. apply blocks_state32.
  unfold state32, word32. lia.
Qed.

Lemma word_bytes_byte (w : Z) :
  word32 w -> Forall byte (Generator.word_bytes w).
Proof.
  unfold word32, byte, Generator.word_bytes. intros Hw.
  assert (Hl : forall x, 0 <= Z.land x 255 < 256).
  { intros x. change 255 with (Z.ones 8). rewrite Z.land_ones by lia.
    apply Z.mod_pos_bound. reflexivity. }
  repeat constructor; try apply Hl.
  - apply Z.shiftr_nonneg. lia.
  - rewrite Z.shiftr_div_pow2 by lia.
    apply Z.div_lt_upper_bound; [reflexivity|]. change (2 ^ 24 * 256) with 4294967296. lia.
Qed.

Lemma ComputeHash_bytes (bytes : list Z) :
  Forall byte (Generator.ComputeHash bytes)
  /\ List.length (Generator.ComputeHash bytes) = 20%nat.
Proof.
  unfold Generator.ComputeHash.
  pose proof (digest_state32 bytes) as H.
  destruct (digest bytes) as [[[[h0 h1] h2] h3] h4].
  destruct H as (H0 & H1 & H2 & H3 & H4).
  split; [|reflexivity].
  repeat (apply Forall_app; split); now apply word_bytes_byte.
Qed.

Lemma x2_alnum (b : Z) : byte b -> forallb_str is_alnum (Generator.x2 b) = true.
Proof.
  unfold byte, Generator.x2. intros Hb. simpl.
  rewrite !hexDigit_alnum; [reflexivity| |].
  - apply Z.mod_pos_bound. lia.
  - split; [apply Z.div_pos; lia | apply Z.div_lt_upper_bound; lia].
Qed.

Lemma concat_x2 (l : list Z) :
  Forall byte l ->
  forallb_str is_alnum (String.concat "" (map Generator.x2 l)) = true
  /\ String.length (String.concat "" (map Generator.x2 l))
     = (2 * List.length l)%nat.
Proof.
  induction 1 as [|b l Hb Hl [IHa IHn]]; [split; reflexivity|].
  destruct l as [|b' l].
  - split; [now apply x2_alnum | reflexivity].
  - change (String.concat "" (map Generator.x2 (b :: b' :: l)))
      with (Generator.x2 b ++ String.concat "" (map Generator.x2 (b' :: l))).
    split.
    + rewrite forallb_str_app, x2_alnum by assumption. exact IHa.
    + rewrite length_app_str, IHn. simpl. lia.
Qed.

(** The digest text of the generator: 40 letters or digits as well. *)
Lemma hash_hex_length (text : string) :
  String.length (Generator.hash_hex text) = 40%nat.
Proof.
  unfold Generator.hash_hex.
  destruct (ComputeHash_bytes (Generator.UTF8_GetBytes text)) as [Hb Hn].
  destruct (concat_x2 _ Hb) as [_ ->]. now rewrite Hn.
Qed.

Lemma hash_hex_alnum (text : string) :
  forallb_str is_alnum (Generator.hash_hex text) = true.
Proof.
  unfold Generator.hash_hex.
  destruct (ComputeHash_bytes (Generator.UTF8_GetBytes text)) as [Hb _].
  now destruct (concat_x2 _ Hb) as [-> _].
Qed.

End DigestFacts.

(** ** The two digest texts agree *)

Section DigestAgreement.
Import Text Utils Notions.

Lemma repeat_str_shift (c : ascii) (k : nat) (acc : string) :
  repeat_str c k ++ String c acc = String c (repeat_str c k ++ acc).
Proof. induction k as [|k IH]; simpl; [reflexivity | now rewrite IH]. Qed.

Lemma hexfix_zero (k : nat) : forall acc : string,
  hexfix k 0 acc = repeat_str "0" k ++ acc.
Proof.
  induction k as [|k IH]; intros acc; [reflexivity|].
  cbn [hexfix]. change (0 / 16) with 0. change (hexDigit (0 mod 16)) with "0"%char.
  rewrite IH. apply repeat_str_shift.
Qed.

Lemma toString16_loop_acc (fuel : nat) : forall (n : Z) (acc : string),
  toString16_loop fuel n acc = toString16_loop fuel n EmptyString ++ acc.
Proof.
  induction fuel as [|fuel IH]; intros n acc; [reflexivity|].
  cbn [toString16_loop]. destruct (n / 16 =? 0); [reflexivity|].
  rewrite IH, (IH _ (String _ EmptyString)), app_str_assoc. reflexivity.
Qed.

Lemma pow16_succ (k : nat) : 16 ^ Z.of_nat (S k) = 16 * 16 ^ Z.of_nat k.
Proof. rewrite Nat2Z.inj_succ, Z.pow_succ_r; lia. Qed.

(** With enough turns, the digits of [toString(16)] padded with zeros to
    the width [S k] are the [S k] low hexadecimal digits. *)
Lemma toString16_loop_hexfix (k : nat) : forall (fuel : nat) (n : Z) (acc : string),
  0 <= n < 16 ^ Z.of_nat (S k) -> n < 16 ^ Z.of_nat (S fuel) ->
  repeat_str "0" (S k - String.length (toString16_loop (S fuel) n EmptyString))
    ++ toString16_loop (S fuel) n EmptyString ++ acc
  = hexfix (S k) n acc.
Proof.
  induction k as [|k IH]; intros fuel n acc Hn Hf.
  - assert (E : n / 16 = 0) by (apply Z.div_small; simpl in Hn; lia).
    cbn [toString16_loop hexfix]. rewrite E. reflexivity.
  - rewrite pow16_succ in Hn.
    assert (Hq : 0 <= n / 16 < 16 ^ Z.of_nat (S k)).
    { split; [apply Z.div_pos; lia | apply Z.div_lt_upper_bound; lia]. }
    cbn [hexfix]. destruct (n / 16 =? 0) eqn:E.
    + apply Z.eqb_eq in E. cbn [toString16_loop]. rewrite E.
      change (0 =? 0) with true. cbv iota.
      cbn [hexfix String.length Nat.sub append].
      change (hexfix k (0 / 16) ?a) with (hexfix k 0 a).
      now rewrite hexfix_zero, repeat_str_shift.
    + apply Z.eqb_neq in E.
      destruct fuel as [|fuel].
      { exfalso. apply E. apply Z.div_small. simpl in Hf. lia. }
      rewrite pow16_succ in Hf.
      assert (Hf' : n / 16 < 16 ^ Z.of_nat (S fuel))
        by (apply Z.div_lt_upper_bound; lia).
      specialize (IH fuel (n / 16) (String (hexDigit (n mod 16)) acc) Hq Hf').
      change (hexfix k (n / 16 / 16)
                (String (hexDigit ((n / 16) mod 16))
                   (String (hexDigit (n mod 16)) acc)))
        with (hexfix (S k) (n / 16) (String (hexDigit (n mod 16)) acc)).
      rewrite <- IH.
      change (toString16_loop (S (S fuel)) n EmptyString)
        with (if n / 16 =? 0 then String (hexDigit (n mod 16)) EmptyString
              else toString16_loop (S fuel) (n / 16)
                     (String (hexDigit (n mod 16)) EmptyString)).
      rewrite (proj2 (Z.eqb_neq _ _) E).
      rewrite (toString16_loop_acc (S fuel) (n / 16) (String _ EmptyString)).
      rewrite length_app_str, !app_str_assoc.
      cbn [String.length append].
      replace (S (S k)
               - (String.length (toString16_loop (S fuel) (n / 16) EmptyString)
                  + 1))%nat
        with (S k - String.length (toString16_loop (S fuel) (n / 16) EmptyString))%nat
        by lia.
      reflexivity.
Qed.

Lemma append_empty_r (s : string) : s ++ EmptyString = s.
Proof. induction s as [|c s IH]; simpl; [reflexivity | now rewrite IH]. Qed.

Lemma toHex_hexfix (i : Z) : toHex i = hexfix 8 (int32 i) EmptyString.
Proof.
  unfold toHex, padStart, toString16.
  pose proof (int32_range i) as Hr.
  rewrite <- (toString16_loop_hexfix 7 (Z.to_nat (Z.log2 (int32 i))) (int32 i)
                EmptyString).
  - now rewrite append_empty_r.
  - change (16 ^ Z.of_nat 8) with 4294967296. exact Hr.
  - destruct (Z.eq_dec (int32 i) 0) as [-> | Hz]; [reflexivity|].
    assert (Hpos : 0 < int32 i) by lia.
    pose proof (Z.log2_spec _ Hpos) as [_ Hlt].
    pose proof (Z.log2_nonneg (int32 i)) as Hl.
    eapply Z.lt_le_trans; [exact Hlt|].
    rewrite Nat2Z.inj_succ, Z2Nat.id by exact Hl.
    change 16 with (2 ^ 4). rewrite <- Z.pow_mul_r by lia.
    apply Z.pow_le_mono_r; lia.
Qed.

(** The eight digits of a word are the two digits of each of its bytes. *)
Lemma word_bytes_hex (w : Z) :
  word32 w ->
  String.concat "" (map Generator.x2 (Generator.word_bytes w))
  = hexfix 8 w EmptyString.
Proof.
  unfold word32. intros Hw.
  unfold Generator.word_bytes, Generator.x2.
  cbn [map String.concat append hexfix].
  change 255 with (Z.ones 8).
  rewrite !Z.land_ones, !Z.shiftr_div_pow2 by lia.
  change (2 ^ 24) with 16777216. change (2 ^ 16) with 65536.
  change (2 ^ 8) with 256.
  repeat (f_equal; [f_equal; Z.div_mod_to_equations; lia|]).
  do 2 f_equal. Z.div_mod_to_equations; lia.
Qed.

Lemma concat_empty_app (l1 l2 : list string) :
  String.concat "" (l1 ++ l2) = String.concat "" l1 ++ String.concat "" l2.
Proof.
  induction l1 as [|x l1 IH]; [reflexivity|].
  destruct l1 as [|y l1].
  - destruct l2 as [|z l2]; [symmetry; apply append_empty_r | reflexivity].
  - change (String.concat "" ((x :: y :: l1) ++ l2))
      with (x ++ String.concat "" ((y :: l1) ++ l2)).
    change (String.concat "" (x :: y :: l1))
      with (x ++ String.concat "" (y :: l1)).
    now rewrite IH, app_str_assoc.
Qed.

(** The digest text of the generator is the digest text of [sha1Hex]. *)
Lemma hash_hex_sha1Hex (text : string) :
  Generator.hash_hex text = sha1Hex text.
Proof.
  unfold Generator.hash_hex, Generator.ComputeHash, Generator.UTF8_GetBytes,
    sha1Hex.
  pose proof (digest_state32 (utf8 text)) as H.
  destruct (digest (utf8 text)) as [[[[h0 h1] h2] h3] h4].
  destruct H as (H0 & H1 & H2 & H3 & H4).
  rewrite !map_app, !concat_empty_app, !word_bytes_hex by assumption.
  rewrite !toHex_hexfix. unfold int32, word32 in *.
  now rewrite !Z.mod_small by assumption.
Qed.

End DigestAgreement.

(** ** Identifiers *)

#[global] Arguments Utils.sha1Hex : simpl never.
#[global] Arguments Generator.hash_hex : simpl never.

Section IdentifierFacts.
Import Text Notions.

Lemma client_identity (v : Vehicle) : Client.identity v = first_truthy v.
Proof.
  unfold Client.identity, Client.or, first_truthy.
  destruct (Client.ToBoolean (V.vehicleId v)) eqn:E1; [now rewrite E1|].
  now destruct (Client.ToBoolean (V.stockNumber v)) eqn:E2.
Qed.

Lemma generator_identity (v : Vehicle) : Generator.identity v = first_truthy v.
Proof.
  unfold Generator.identity, first_truthy.
  change Generator.truthy with Client.ToBoolean.
  destruct (Client.ToBoolean (V.vehicleId v)) eqn:E1; simpl.
  - now rewrite E1.
  - now destruct (Client.ToBoolean (V.stockNumber v)) eqn:E2.
Qed.

Lemma space_not_alnum (c : ascii) :
  Client.is_space c = true -> is_alnum c = false.
Proof.
  destruct c as [[] [] [] [] [] [] [] []]; vm_compute; congruence.
Qed.

Lemma filter_alnum_blank (s : string) :
  forallb_str Client.is_space s = true -> filter_str is_alnum s = EmptyString.
Proof.
  induction s as [|c s IH]; simpl; [reflexivity|].
  intros H. apply andb_true_iff in H as [Hc Hs].
  now rewrite (space_not_alnum c Hc), IH.
Qed.

Lemma client_fallback (v : Vehicle) :
  Client.ToBoolean (first_truthy v) = false ->
  Client.vehicleId v
  = "v" ++ substring 0 10 (Utils.sha1Hex (Client.ToString (Client.seed v))).
Proof.
  intros H. unfold Client.vehicleId. now rewrite client_identity, H.
Qed.

Lemma generator_fallback (v : Vehicle) :
  Client.ToBoolean (first_truthy v) = false ->
  Generator.Slug_Id v
  = "v" ++ substring 0 10
             (Generator.hash_hex (Generator.ToString (Generator.seed v))).
Proof.
  intros H. unfold Generator.Slug_Id.
  rewrite generator_identity. change Generator.truthy with Client.ToBoolean.
  rewrite H. simpl negb. cbv iota.
  apply filter_str_all.
  change (is_alnum "v"
          && forallb_str is_alnum
               (substring 0 10
                  (Generator.hash_hex (Generator.ToString (Generator.seed v))))
          = true).
  apply andb_true_iff; split; [reflexivity|].
  apply forallb_substring, hash_hex_alnum.
Qed.

Lemma client_selected (v : Vehicle) :
  Client.ToBoolean (first_truthy v) = true ->
  Client.vehicleId v = filter_str is_alnum (Client.ToString (first_truthy v)).
Proof.
  intros H. unfold Client.vehicleId. now rewrite client_identity, H.
Qed.

Lemma generator_selected (v : Vehicle) :
  Client.ToBoolean (first_truthy v) = true ->
  Generator.Slug_Id v
  = filter_str is_alnum (Generator.ToString (first_truthy v)).
Proof.
  intros H. unfold Generator.Slug_Id.
  rewrite generator_identity. change Generator.truthy with Client.ToBoolean.
  now rewrite H.
Qed.

Lemma client_vehicleId_alnum (v : Vehicle) :
  forallb_str is_alnum (Client.vehicleId v) = true.
Proof.
  destruct (Client.ToBoolean (first_truthy v)) eqn:E.
  - rewrite client_selected by exact E. apply forallb_filter_str.
  - rewrite client_fallback by exact E.
    change (is_alnum "v"
            && forallb_str is_alnum
                 (substring 0 10
                    (Utils.sha1Hex (Client.ToString (Client.seed v)))) = true).
    apply andb_true_iff; split; [reflexivity|].
    apply forallb_substring, sha1Hex_alnum.
Qed.

Lemma generator_Slug_Id_alnum (v : Vehicle) :
  forallb_str is_alnum (Generator.Slug_Id v) = true.
Proof. unfold Generator.Slug_Id. apply forallb_filter_str. Qed.

Lemma client_fallback_length (v : Vehicle) :
  Client.ToBoolean (first_truthy v) = false ->
  String.length (Client.vehicleId v) = 11%nat.
Proof.
  intros H. rewrite client_fallback by exact H.
  change (S (String.length
               (substring 0 10
                  (Utils.sha1Hex (Client.ToString (Client.seed v))))) = 11%nat).
  now rewrite length_substring0, sha1Hex_length.
Qed.

Lemma generator_fallback_length (v : Vehicle) :
  Client.ToBoolean (first_truthy v) = false ->
  String.length (Generator.Slug_Id v) = 11%nat.
Proof.
  intros H. rewrite generator_fallback by exact H.
  change (S (String.length
               (substring 0 10
                  (Generator.hash_hex (Generator.ToString (Generator.seed v)))))
          = 11%nat).
  now rewrite length_substring0, hash_hex_length.
Qed.

(** Where the two identifier functions agree: on every record whose kept
    identity field has the same text in both runtimes (a text or a number),
    and on every record without identity field whose two seeds have the same
    text (a [vin] that is a text or a number, for one). *)
Lemma identifiers_agree_on_identity (v : Vehicle) :
  Client.ToBoolean (first_truthy v) = true ->
  Client.ToString (first_truthy v) = Generator.ToString (first_truthy v) ->
  Client.vehicleId v = Generator.Slug_Id v.
Proof.
  intros Ht Hs. rewrite client_selected, generator_selected by exact Ht.
  now rewrite Hs.
Qed.

Lemma identifiers_agree_on_seed (v : Vehicle) :
  Client.ToBoolean (first_truthy v) = false ->
  Client.ToString (Client.seed v) = Generator.ToString (Generator.seed v) ->
  Client.vehicleId v = Generator.Slug_Id v.
Proof.
  intros Ht Hs. rewrite client_fallback, generator_fallback by exact Ht.
  now rewrite hash_hex_sha1Hex, Hs.
Qed.

Lemma seeds_agree_on_vin (v : Vehicle) :
  Client.ToBoolean (V.vin v) = true ->
  Client.ToString (V.vin v) = Generator.ToString (V.vin v) ->
  Client.ToString (Client.seed v) = Generator.ToString (Generator.seed v).
Proof.
  intros Ht Hs. unfold Client.seed, Generator.seed, Client.or.
  change Generator.truthy with Client.ToBoolean.
  now rewrite !Ht.
Qed.

End IdentifierFacts.

Section IdentifierClaims.
Import Text Notions.

(** C1 (as the code behaves).  The record [{ year: 2020, make: "Ford" }] has
    no identity field and no VIN.  The loader joins the fields that are
    truthy, the generator joins all seven fields, so the two fallback seeds
    differ, and so do the two identifiers. *)
Theorem C1_generator_and_loader_identifiers_differ :
  Client.seed year_make_only = VStr "2020|Ford"
  /\ Generator.seed year_make_only = VStr "2020|Ford|||||"
  /\ Client.vehicleId year_make_only = "vf4f5766f55"
  /\ Generator.Slug_Id year_make_only = "va08a97dd58"
  /\ Client.vehicleId year_make_only <> Generator.Slug_Id year_make_only.
Proof.
  assert (Hc : Client.vehicleId year_make_only = "vf4f5766f55")
    by (vm_compute; reflexivity).
  assert (Hg : Generator.Slug_Id year_make_only = "va08a97dd58")
    by (vm_compute; reflexivity).
  split; [vm_compute; reflexivity|].
  split; [vm_compute; reflexivity|].
  split; [exact Hc|]. split; [exact Hg|].
  rewrite Hc, Hg. discriminate.
Qed.

(** C4 (as the code behaves).  On the record [{}] the loader derives the
    identifier from the seed ["NA"]: [v] and the first ten hexadecimal digits
    of SHA-1("NA"), 11 characters.  The generator joins seven empty texts
    into ["||||||"], which is not empty, never reaches ["NA"], and returns
    another identifier. *)
Theorem C4_empty_record_identifiers :
  Client.seed V.empty = VStr "NA"
  /\ Client.vehicleId V.empty = "v" ++ substring 0 10 (Utils.sha1Hex "NA")
  /\ Client.vehicleId V.empty = "v3feda0153e"
  /\ String.length (Client.vehicleId V.empty) = 11%nat
  /\ Generator.seed V.empty = VStr "||||||"
  /\ Generator.Slug_Id V.empty = "v34bd729596"
  /\ Generator.Slug_Id V.empty <> "v" ++ substring 0 10 (Utils.sha1Hex "NA").
Proof.
  assert (Hg : Generator.Slug_Id V.empty = "v34bd729596")
    by (vm_compute; reflexivity).
  assert (Hn : "v" ++ substring 0 10 (Utils.sha1Hex "NA") = "v3feda0153e")
    by (vm_compute; reflexivity).
  assert (Hc : Client.vehicleId V.empty = "v3feda0153e")
    by (vm_compute; reflexivity).
  split; [vm_compute; reflexivity|].
  split; [now rewrite Hc, Hn|].
  split; [exact Hc|].
  split; [now rewrite Hc|].
  split; [vm_compute; reflexivity|].
  split; [exact Hg|].
  rewrite Hg, Hn. discriminate.
Qed.

(** C5, the claim refuted: with a [vehicleId] of three spaces and the stock
    number [A1234], the rule of the specification keeps the stock number,
    while both runtimes keep the blank [vehicleId] and return the empty
    identifier. *)
Lemma C5_blank_vehicleId_is_kept :
  Spec.identity blank_vehicleId = Some (VStr "A1234")
  /\ Client.identity blank_vehicleId = VStr "   "
  /\ Generator.identity blank_vehicleId = VStr "   "
  /\ Client.vehicleId blank_vehicleId = ""
  /\ Generator.Slug_Id blank_vehicleId = ""
  /\ Client.vehicleId (V.with_vehicleId VUndefined blank_vehicleId) = "A1234".
Proof. repeat split; vm_compute; reflexivity. Qed.

(** C5, amended.  Both runtimes keep the first of [vehicleId], [stockNumber],
    [id] that is truthy; no white space is stripped.  When the kept value is
    a non-empty text, the identifier is that text without the characters
    other than letters and digits; in particular a non-empty [vehicleId] made
    of white space gives the empty identifier, whatever [stockNumber] and
    [id] are. *)
Theorem C5_first_truthy_identity_field (v : Vehicle) :
  Client.identity v = first_truthy v
  /\ Generator.identity v = first_truthy v
  /\ (forall s, first_truthy v = VStr s -> s <> "" ->
        Client.vehicleId v = filter_str is_alnum s
        /\ Generator.Slug_Id v = filter_str is_alnum s)
  /\ (forall s, V.vehicleId v = VStr s -> s <> "" ->
        forallb_str Client.is_space s = true ->
        Client.vehicleId v = "" /\ Generator.Slug_Id v = "").
Proof.
  split; [apply client_identity|]. split; [apply generator_identity|].
  assert (Hsel : forall s, first_truthy v = VStr s -> s <> "" ->
            Client.vehicleId v = filter_str is_alnum s
            /\ Generator.Slug_Id v = filter_str is_alnum s).
  { intros s Hs Hne.
    assert (Ht : Client.ToBoolean (first_truthy v) = true).
    { rewrite Hs. destruct s; [congruence | reflexivity]. }
    rewrite client_selected, generator_selected by exact Ht.
    now rewrite Hs. }
  split; [exact Hsel|].
  intros s Hs Hne Hblank.
  assert (Hf : first_truthy v = VStr s).
  { unfold first_truthy. rewrite Hs. destruct s; [congruence | reflexivity]. }
  destruct (Hsel s Hf Hne) as [-> ->].
  now rewrite filter_alnum_blank.
Qed.

Lemma C5_first_truthy_identity_field_witness :
  Client.vehicleId blank_vehicleId = ""
  /\ Generator.Slug_Id blank_vehicleId = "".
Proof.
  apply (C5_first_truthy_identity_field blank_vehicleId) with (s := "   ");
    [reflexivity | discriminate | reflexivity].
Defined.

(** C6, the claim refuted: a [vehicleId] of three hyphens is truthy, is kept,
    and loses every character in the final sanitization. *)
Lemma C6_identifier_can_be_empty :
  Client.vehicleId dashes = "" /\ Generator.Slug_Id dashes = "".
Proof. split; vm_compute; reflexivity. Qed.

(** C6, amended.  In both runtimes the identifier is made of ASCII letters
    and digits only.  It is empty exactly when an identity field is kept
    whose text has no letter and no digit; when no identity field is truthy
    it is the fallback of 11 characters. *)
Theorem C6_identifier_url_safe_and_empty_only_without_alnum (v : Vehicle) :
  forallb_str is_alnum (Client.vehicleId v) = true
  /\ forallb_str is_alnum (Generator.Slug_Id v) = true
  /\ is_empty (Client.vehicleId v)
     = Client.ToBoolean (first_truthy v)
       && negb (existsb_str is_alnum (Client.ToString (first_truthy v)))
  /\ is_empty (Generator.Slug_Id v)
     = Client.ToBoolean (first_truthy v)
       && negb (existsb_str is_alnum (Generator.ToString (first_truthy v)))
  /\ (Client.ToBoolean (first_truthy v) = false ->
        String.length (Client.vehicleId v) = 11%nat
        /\ String.length (Generator.Slug_Id v) = 11%nat).
Proof.
  split; [apply client_vehicleId_alnum|].
  split; [apply generator_Slug_Id_alnum|].
  destruct (Client.ToBoolean (first_truthy v)) eqn:E.
  - rewrite client_selected, generator_selected by exact E.
    rewrite !is_empty_filter_str. repeat split; congruence.
  - pose proof (client_fallback_length v E) as Hc.
    pose proof (generator_fallback_length v E) as Hg.
    repeat split; try assumption.
    + destruct (Client.vehicleId v); [discriminate | reflexivity].
    + destruct (Generator.Slug_Id v); [discriminate | reflexivity].
Qed.

Lemma C6_identifier_url_safe_and_empty_only_without_alnum_witness :
  String.length (Client.vehicleId V.empty) = 11%nat
  /\ String.length (Generator.Slug_Id V.empty) = 11%nat.
Proof.
  apply (C6_identifier_url_safe_and_empty_only_without_alnum V.empty).
  reflexivity.
Defined.

End IdentifierClaims.

(** ** Slugs *)

Section SlugClaims.

(** C9.  The slug of the generator and the slug of the loader are computed
    from [year], [make], [model], [trim] (and the locality): two records
    that agree on these four fields have the same slug, whatever their
    [vin], [vehicleId], [stockNumber], [id] and other fields are. *)
Theorem C9_slug_reads_descriptive_fields_only
    (cfg : Generator.Config) (v1 v2 : Vehicle) :
  V.year v1 = V.year v2 -> V.make v1 = V.make v2 ->
  V.model v1 = V.model v2 -> V.trim v1 = V.trim v2 ->
  Generator.Slug_Tail cfg v1 = Generator.Slug_Tail cfg v2
  /\ Client.slug v1 = Client.slug v2.
Proof.
  intros Hy Hk Hm Ht.
  unfold Generator.Slug_Tail, Client.slug.
  now rewrite Hy, Hk, Hm, Ht.
Qed.

Lemma C9_slug_reads_descriptive_fields_only_witness :
  Generator.Slug_Tail Generator.defaults f150
  = Generator.Slug_Tail Generator.defaults
      (V.with_vin (VStr "2HGFC2F59KH512345") vin_as_stock)
  /\ Client.slug f150
     = Client.slug (V.with_vin (VStr "2HGFC2F59KH512345") vin_as_stock).
Proof.
  apply (C9_slug_reads_descriptive_fields_only Generator.defaults f150
           (V.with_vin (VStr "2HGFC2F59KH512345") vin_as_stock));
    reflexivity.
Defined.

End SlugClaims.

(** ** The inventory grid *)

Section GridFacts.
Import Text Notions.
Context {host : JSHost}.

Lemma lt_NaN (b : number) : Client.lt NaN b = false.
Proof. reflexivity. Qed.

Lemma getPriceRange_NaN (price : value) :
  Client.ToNumber price = NaN -> Client.getPriceRange price = "over30".
Proof. intros H. unfold Client.getPriceRange. now rewrite H. Qed.





Section Sorting.
Variables (A : Type) (cmp : A -> A -> number) (f : A -> A).
Hypothesis cmp_f : forall a b, cmp (f a) (f b) = cmp a b.



Lemma insert_In (x y : A) (l : list A) :
  In y (Client.insert cmp x l) -> y = x \/ In y l.
Proof.
  induction l as [|z l IH]; simpl.
  - intros [H | []]. now left.
  - destruct (Client.after (cmp x z)); simpl.
    + intros [H | H]; [right; now left|].
      destruct (IH H) as [E | E]; [now left | right; now right].
    + intros [H | H]; [now left | now right].
Qed.

Lemma sort_In (y : A) (l : list A) : In y (Client.sort cmp l) -> In y l.
Proof.
  induction l as [|x l IH]; simpl; [tauto|].
  intros H. destruct (insert_In _ _ _ H) as [E | E]; [now left|].
  right. now apply IH.
Qed.



End Sorting.





End GridFacts.

Section GridClaims.
Import Text Notions.
Context {host : JSHost}.


(** C10, amended.  A price that is absent (the record has no [price]), or
    whose numeric reading is [NaN] as that of a non-numeric text is, fails
    the three comparisons of [getPriceRange] and is classified [over30]; in
    [filterVehicles] such a record passes the price condition for the range
    [over30] and for no other bucket. *)
Theorem C10_nan_price_is_over30 (v : Vehicle) :
  V.price v = VUndefined \/ Client.ToNumber (V.price v) = NaN ->
  Client.getPriceRange (V.price v) = "over30"
  /\ Client.priceMatch "over30" v = true
  /\ Client.priceMatch "under10" v = false
  /\ Client.priceMatch "10to20" v = false
  /\ Client.priceMatch "20to30" v = false
  /\ (forall r, r <> "all" -> r <> "over30" -> Client.priceMatch r v = false).
Proof.
  intros H.
  assert (Hn : Client.ToNumber (V.price v) = NaN)
    by (destruct H as [-> | H]; [reflexivity | exact H]).
  pose proof (getPriceRange_NaN _ Hn) as Hr.
  unfold Client.priceMatch. rewrite Hr.
  repeat (split; [reflexivity|]).
  intros r Hall Hover.
  apply orb_false_iff. split.
  - now apply String.eqb_neq.
  - apply String.eqb_neq. congruence.
Qed.

End GridClaims.


(** C10, the claim refuted: a price that is [null], [false], the empty text
    or a blank text is not a number, but its numeric reading is 0, not
    [NaN]: the record is classified [under10], passes the price condition
    for [under10] and fails it for [over30]. *)
Lemma C10_null_price_is_under10 :
  Client.getPriceRange VNull = "under10"
  /\ Client.getPriceRange (VBool false) = "under10"
  /\ Client.getPriceRange (VStr "") = "under10"
  /\ Client.getPriceRange (VStr "   ") = "under10"
  /\ Client.priceMatch "under10" (V.with_price VNull f150) = true
  /\ Client.priceMatch "over30" (V.with_price VNull f150) = false.
Proof. repeat split; vm_compute; reflexivity. Qed.

Lemma C10_nan_price_is_over30_witness :
  Client.getPriceRange (VStr "not-a-number") = "over30"
  /\ Client.priceMatch "over30" (V.with_price (VStr "not-a-number") f150) = true
  /\ Client.priceMatch "under10" (V.with_price (VStr "not-a-number") f150) = false.
Proof.
  destruct (C10_nan_price_is_over30 (V.with_price (VStr "not-a-number") f150))
    as (H1 & H2 & H3 & _).
  - right. reflexivity.
  - exact (conj H1 (conj H2 H3)).
Defined.

(** ** The generator run *)

Section RunFacts.
Import Text Notions.
Context {host : PSHost}.
Variable cfg : Generator.Config.

Lemma loop_result (vehicles : list Vehicle) : forall st : Generator.Loop,
  fold_left (Generator.body cfg) vehicles st
  = {| Generator.written :=
         Generator.written st
           ++ map (fun v => (Generator.relDir cfg v ++ "/index.html",
                             Generator.render cfg v)) vehicles;
       Generator.vdpUrls :=
         Generator.vdpUrls st ++ map (Generator.pageUrl cfg) vehicles;
       Generator.count :=
         Generator.count st + Z.of_nat (List.length vehicles) |}.
Proof.
  induction vehicles as [|v vehicles IH]; intros [w u c].
  - simpl. now rewrite !app_nil_r, Z.add_0_r.
  - cbn [fold_left]. rewrite IH. unfold Generator.body.
    cbn [Generator.written Generator.vdpUrls Generator.count map List.length].
    rewrite <- !app_assoc. f_equal. lia.
Qed.

Lemma priceStr_fallback (v : Vehicle) :
  Generator.truthy (V.price v) = false
  \/ Generator.to_int32 (V.price v) = None ->
  Generator.priceStr v = "Call for Price".
Proof.
  unfold Generator.priceStr. intros [H | H]; rewrite H; [reflexivity|].
  now destruct (Generator.truthy (V.price v)).
Qed.

Lemma milesStr_fallback (v : Vehicle) :
  Generator.truthy (V.mileage v) = false
  \/ Generator.to_int32 (V.mileage v) = None ->
  Generator.milesStr v = "Mileage N/A".
Proof.
  unfold Generator.milesStr. intros [H | H]; rewrite H; [reflexivity|].
  now destruct (Generator.truthy (V.mileage v)).
Qed.

End RunFacts.

Section RunClaims.
Import Text Notions.
Context {host : PSHost}.

(** C7.  A price that is absent, or that the cast to [int] rejects (the text
    ["not-a-number"] for one), is rendered as ["Call for Price"]; a mileage
    that is absent, or that the cast rejects, as ["Mileage N/A"].  The
    failure of one field leaves the other field as it would be, and the run
    does not stop: for every non-empty list of records it writes one page per
    record, in order. *)
Theorem C7_price_and_mileage_degrade_to_text
    (cfg : Generator.Config) (NoUpdateSitemap : bool) (today : string)
    (sitemap : Generator.SitemapFile) (vehicles : list Vehicle) :
  vehicles <> [] ->
  (exists sitemap',
     Generator.run cfg NoUpdateSitemap today (Some (Some vehicles)) sitemap
     = Generator.Generated
         (map (fun v => (Generator.relDir cfg v ++ "/index.html",
                         Generator.render cfg v)) vehicles)
         sitemap' (Z.of_nat (List.length vehicles)))
  /\ (forall v,
        (V.price v = VUndefined \/ Generator.to_int32 (V.price v) = None ->
           Generator.price_text (Generator.render cfg v) = "Call for Price")
        /\ (StringToInt32 "not-a-number" = None ->
            V.price v = VStr "not-a-number" ->
              Generator.price_text (Generator.render cfg v) = "Call for Price")
        /\ (V.mileage v = VUndefined \/ Generator.to_int32 (V.mileage v) = None ->
              Generator.miles_text (Generator.render cfg v) = "Mileage N/A")
        /\ (forall x,
              Generator.miles_text (Generator.render cfg (V.with_price x v))
              = Generator.miles_text (Generator.render cfg v))
        /\ (forall x,
              Generator.price_text (Generator.render cfg (V.with_mileage x v))
              = Generator.price_text (Generator.render cfg v))).
Proof.
  intros Hne. split.
  - destruct vehicles as [|v0 vehicles]; [congruence|].
    unfold Generator.run. rewrite loop_result.
    cbn [Generator.written Generator.vdpUrls Generator.count app].
    eexists. reflexivity.
  - intros v. cbn [Generator.render Generator.price_text Generator.miles_text].
    repeat split.
    + intros [H | H]; apply priceStr_fallback;
        [left; now rewrite H | now right].
    + intros Hcast Hp. apply priceStr_fallback. right.
      rewrite Hp. exact Hcast.
    + intros [H | H]; apply milesStr_fallback;
        [left; now rewrite H | now right].
Qed.

End RunClaims.

Lemma C7_price_and_mileage_degrade_to_text_witness :
  Generator.price_text
    (Generator.render Generator.defaults
       (V.with_price (VStr "not-a-number") f150)) = "Call for Price".
Proof.
  assert (Hne : [V.with_price (VStr "not-a-number") f150] <> [])
    by discriminate.
  destruct (C7_price_and_mileage_degrade_to_text Generator.defaults false
              "2026-11-03" Generator.Absent
              [V.with_price (VStr "not-a-number") f150] Hne) as [_ H].
  destruct (H (V.with_price (VStr "not-a-number") f150)) as (_ & H2 & _).
  apply H2; reflexivity.
Defined.

(** ** The sitemap *)

Section SitemapFacts.
Import Text Notions.

Lemma like_star (t pat : string) :
  Generator.like t (String "*" pat)
  = Generator.like t pat
    || match t with
       | EmptyString => false
       | String _ t' => Generator.like t' (String "*" pat)
       end.
Proof. destruct t; reflexivity. Qed.

Lemma fold_case_backslash (c : ascii) :
  Ascii.eqb (Generator.fold_case "\") (Generator.fold_case c) = true ->
  is_backslash c = true.
Proof.
  destruct c as [[] [] [] [] [] [] [] []]; vm_compute; congruence.
Qed.

(** A text accepted by the pattern of [Update-Sitemap] has a backslash. *)
Lemma like_vdp_backslash (t : string) :
  Generator.like t "*\/vdp\/*" = true -> existsb_str is_backslash t = true.
Proof.
  induction t as [|c t IH]; rewrite like_star.
  - discriminate.
  - intros H. apply orb_true_iff in H as [H | H].
    + cbn [Generator.like] in H.
      change (Ascii.eqb "\" "*") with false in H. cbv iota in H.
      apply andb_true_iff in H as [H _].
      change (Ascii.eqb "\" "?") with false in H.
      cbn [orb] in H. apply fold_case_backslash in H.
      cbn [existsb_str]. now rewrite H.
    + cbn [existsb_str]. rewrite (IH H). apply orb_true_r.
Qed.

Lemma Update_Sitemap_appends (today : string) (VdpUrls : list string)
    (urls : list Generator.UrlNode) :
  plain_locs urls ->
  Generator.Update_Sitemap today VdpUrls (Generator.Sitemap urls)
  = Generator.Sitemap (urls ++ map (Generator.fresh_node today) VdpUrls).
Proof.
  intros Hplain. unfold Generator.Update_Sitemap. do 2 f_equal.
  induction urls as [|u urls IH]; [reflexivity|].
  cbn [filter].
  assert (Hu : match Generator.loc u with
               | Some text => negb (Generator.like text "*\/vdp\/*")
               | None => true
               end = true).
  { destruct (Generator.loc u) as [text|] eqn:E; [|reflexivity].
    destruct (Generator.like text "*\/vdp\/*") eqn:L; [|reflexivity].
    apply like_vdp_backslash in L.
    rewrite (Hplain u text (or_introl eq_refl) E) in L. discriminate. }
  rewrite Hu. f_equal. apply IH.
  intros u' text Hin. apply Hplain. now right.
Qed.

(** Two runs over the same addresses leave every address twice. *)
Lemma Update_Sitemap_twice (today : string) (VdpUrls : list string)
    (urls : list Generator.UrlNode) :
  plain_locs urls ->
  (forall u, In u VdpUrls -> existsb_str is_backslash u = false) ->
  Generator.Update_Sitemap today VdpUrls
    (Generator.Update_Sitemap today VdpUrls (Generator.Sitemap urls))
  = Generator.Sitemap
      (urls ++ map (Generator.fresh_node today) VdpUrls
            ++ map (Generator.fresh_node today) VdpUrls).
Proof.
  intros Hplain Hurls.
  rewrite (Update_Sitemap_appends today VdpUrls urls Hplain).
  rewrite Update_Sitemap_appends; [now rewrite <- app_assoc|].
  intros u text Hin Hloc. apply in_app_or in Hin as [Hin | Hin].
  - exact (Hplain u text Hin Hloc).
  - apply in_map_iff in Hin as (x & <- & Hx).
    cbn in Hloc. injection Hloc as <-. now apply Hurls.
Qed.

Lemma alnum_not_backslash (c : ascii) :
  is_alnum c = true -> not_backslash c = true.
Proof. destruct c as [[] [] [] [] [] [] [] []]; vm_compute; congruence. Qed.

Lemma slug_char_not_backslash (c : ascii) :
  slug_char c = true -> not_backslash c = true.
Proof. destruct c as [[] [] [] [] [] [] [] []]; vm_compute; congruence. Qed.

Lemma Slug_Part_chars (x : value) (sp : string) :
  Generator.Slug_Part x = Some sp -> forallb_str slug_char sp = true.
Proof.
  intros Hsp.
  assert (H : forall t,
            forallb_str slug_char
              (strip Generator.is_hyphen
                 (squash_runs Generator.not_alnum "-" t)) = true).
  { intros t. apply forallb_strip, forallb_squash; [reflexivity|].
    intros c Hc. unfold slug_char, Generator.not_alnum in *.
    apply negb_false_iff in Hc. now rewrite Hc. }
  unfold Generator.Slug_Part in Hsp.
  destruct x; try discriminate;
    match type of Hsp with
    | context [Generator.ToString ?y] =>
        destruct (is_empty (strip Generator.is_space (Generator.ToString y)));
        [discriminate|];
        destruct (is_empty
                    (strip Generator.is_hyphen
                       (squash_runs Generator.not_alnum "-"
                          (strip Generator.is_space (Generator.ToString y)))));
        [discriminate|]; injection Hsp as <-; apply H
    end.
Qed.

(** A slug of the generator is made of letters, digits and hyphens. *)
Lemma Slug_Tail_chars (cfg : Generator.Config) (v : Vehicle) :
  forallb_str slug_char (Generator.Slug_Tail cfg v) = true.
Proof.
  unfold Generator.Slug_Tail. apply forallb_join; [reflexivity|].
  apply Forall_forall. intros sp Hin.
  apply in_flat_map in Hin as (x & _ & Hin).
  destruct (Generator.Slug_Part x) as [sp'|] eqn:E; [|destruct Hin].
  destruct (is_empty sp'); [destruct Hin|].
  destruct Hin as [<- | []]. exact (Slug_Part_chars x sp' E).
Qed.

(** A page address has a backslash only if the site address has one. *)
Lemma pageUrl_plain (cfg : Generator.Config) (v : Vehicle) :
  existsb_str is_backslash (Generator.SiteUrl cfg) = false ->
  existsb_str is_backslash (Generator.pageUrl cfg v) = false.
Proof.
  rewrite !existsb_forallb. fold not_backslash.
  intros H. apply negb_false_iff in H. apply negb_false_iff.
  unfold Generator.pageUrl, Generator.relDir, Generator.TrimEnd.
  rewrite !forallb_str_app.
  rewrite forallb_drop_while_end by exact H.
  rewrite (forallb_str_weaken is_alnum not_backslash _ alnum_not_backslash
             (generator_Slug_Id_alnum v)).
  rewrite (forallb_str_weaken slug_char not_backslash _ slug_char_not_backslash
             (Slug_Tail_chars cfg v)).
  reflexivity.
Qed.

(** Whatever the records, when the site address and the sitemap have no
    backslash the second run adds every page address a second time. *)
Lemma second_run_appends_again {host : PSHost} (cfg : Generator.Config)
    (today : string) (vehicles : list Vehicle) (urls : list Generator.UrlNode) :
  vehicles <> [] ->
  existsb_str is_backslash (Generator.SiteUrl cfg) = false ->
  plain_locs urls ->
  let fresh := map (Generator.fresh_node today)
                 (map (Generator.pageUrl cfg) vehicles) in
  exists pages n,
    Generator.run cfg false today (Some (Some vehicles)) (Generator.Sitemap urls)
    = Generator.Generated pages (Generator.Sitemap (urls ++ fresh)) n
    /\ Generator.run cfg false today (Some (Some vehicles))
         (Generator.Sitemap (urls ++ fresh))
       = Generator.Generated pages
           (Generator.Sitemap (urls ++ fresh ++ fresh)) n.
Proof.
  intros Hne Hsite Hplain fresh. subst fresh.
  assert (Hurls : forall u, In u (map (Generator.pageUrl cfg) vehicles) ->
                    existsb_str is_backslash u = false).
  { intros u Hin. apply in_map_iff in Hin as (v & <- & _).
    now apply pageUrl_plain. }
  pose proof (Update_Sitemap_appends today
                (map (Generator.pageUrl cfg) vehicles) urls Hplain) as H1.
  pose proof (Update_Sitemap_twice today
                (map (Generator.pageUrl cfg) vehicles) urls Hplain Hurls) as H2.
  rewrite H1 in H2.
  destruct vehicles as [|v0 vehicles]; [congruence|].
  unfold Generator.run. rewrite loop_result.
  cbn [Generator.written Generator.vdpUrls Generator.count app negb].
  do 2 eexists. split.
  - rewrite H1. reflexivity.
  - rewrite H2. reflexivity.
Qed.

End SitemapFacts.

Section SitemapClaims.
Import Text Notions.

(** C2 (as the code behaves).  The pattern of [Update-Sitemap] asks for a
    backslash before each slash of [/vdp/], which no page address has, so no
    entry is removed.  Starting from a sitemap that lists the home page, the
    first run over one record leaves 2 entries, the second run over the same
    record leaves 3, and the address of the page is listed twice. *)
Theorem C2_second_run_duplicates_the_entry :
  exists pages sm1 sm2,
    Generator.run Generator.defaults false "2026-11-03" (Some (Some [f150]))
      (Generator.Sitemap home_only)
    = Generator.Generated pages (Generator.Sitemap sm1) 1
    /\ Generator.run Generator.defaults false "2026-11-03"
         (Some (Some [f150])) (Generator.Sitemap sm1)
       = Generator.Generated pages (Generator.Sitemap sm2) 1
    /\ List.length sm1 = 2%nat
    /\ List.length sm2 = 3%nat
    /\ entries_at (Generator.pageUrl Generator.defaults f150) sm1 = 1%nat
    /\ entries_at (Generator.pageUrl Generator.defaults f150) sm2 = 2%nat.
Proof.
  do 3 eexists.
  split; [vm_compute; reflexivity|].
  split; [vm_compute; reflexivity|].
  repeat split; vm_compute; reflexivity.
Qed.

End SitemapClaims.

(** ** The VIN and the page address *)

Section AddressFacts.
Import Text Notions.

Variable n : string.
Hypothesis n_vin : well_formed_vin n = true.

Lemma vin_length : String.length n = 17%nat.
Proof.
  unfold well_formed_vin in n_vin. apply andb_true_iff in n_vin as [H _].
  now apply Nat.eqb_eq.
Qed.

Lemma vin_alnum : forallb_str is_alnum n = true.
Proof.
  unfold well_formed_vin in n_vin. now apply andb_true_iff in n_vin as [_ H].
Qed.

Lemma vin_not_empty : n <> EmptyString.
Proof. pose proof vin_length as H. intros ->. discriminate. Qed.

Lemma vin_too_long (h : string) :
  (String.length h < 17)%nat -> contains n h = false.
Proof.
  intros Hh. destruct (contains n h) eqn:E; [|reflexivity].
  apply contains_length in E. rewrite vin_length in E. lia.
Qed.

Lemma vin_split (a : string) (c : ascii) (b : string) :
  is_alnum c = false ->
  contains n a = false -> contains n b = false ->
  contains n (a ++ String c b) = false.
Proof.
  intros Hc Ha Hb. destruct (contains n (a ++ String c b)) eqn:E; [|reflexivity].
  apply (contains_split is_alnum n c b a vin_alnum Hc) in E as [E | E]; congruence.
Qed.

Lemma generator_text_free (x : value) :
  mentions n x = false -> contains n (Generator.ToString x) = false.
Proof.
  destruct x as [| |[]|z|s]; cbn [mentions Generator.ToString]; trivial;
    intros _; apply vin_too_long; simpl; lia.
Qed.

Lemma client_text_free (x : value) :
  mentions n x = false -> contains n (Client.ToString x) = false.
Proof.
  destruct x as [| |[]|z|s]; cbn [mentions Client.ToString]; trivial;
    intros _; apply vin_too_long; simpl; lia.
Qed.

Lemma Slug_Part_occurrence (x : value) (sp : string) :
  Generator.Slug_Part x = Some sp -> contains n sp = true ->
  contains n (Generator.ToString x) = true.
Proof.
  intros Hsp Hc.
  assert (H : contains n
                (strip Generator.is_hyphen
                   (squash_runs Generator.not_alnum "-"
                      (strip Generator.is_space (Generator.ToString x))))
              = true).
  { unfold Generator.Slug_Part in Hsp.
    destruct x; try discriminate;
      match type of Hsp with
      | context [Generator.ToString ?y] =>
          destruct (is_empty (strip Generator.is_space (Generator.ToString y)));
          [discriminate|];
          destruct (is_empty
                      (strip Generator.is_hyphen
                         (squash_runs Generator.not_alnum "-"
                            (strip Generator.is_space (Generator.ToString y)))));
          [discriminate|]; now injection Hsp as <-
      end. }
  apply contains_strip in H.
  apply (contains_squash is_alnum Generator.not_alnum "-" eq_refl n
           vin_alnum vin_not_empty) in H.
  now apply contains_strip in H.
Qed.

Lemma slugPart_occurrence (x : value) :
  contains n (Client.slugPart x) = true ->
  contains n (Client.ToString x) = true.
Proof.
  unfold Client.slugPart. intros H.
  apply contains_strip in H.
  apply (contains_squash is_alnum Client.not_alnum "-" eq_refl n
           vin_alnum vin_not_empty) in H.
  now apply contains_strip in H.
Qed.

Variable cfg : Generator.Config.
Variable v : Vehicle.
Hypothesis elsewhere : occurs_elsewhere n cfg v = false.

Lemma elsewhere_fields :
  contains n (Generator.SiteUrl cfg) = false
  /\ contains n (Generator.City cfg) = false
  /\ contains n (Generator.State cfg) = false
  /\ contains n (Generator.Zip cfg) = false
  /\ mentions n (V.year v) = false /\ mentions n (V.make v) = false
  /\ mentions n (V.model v) = false /\ mentions n (V.trim v) = false
  /\ identity_mentions n v = false.
Proof.
  unfold occurs_elsewhere in elsewhere.
  repeat (apply orb_false_iff in elsewhere as [elsewhere ?]).
  repeat split; assumption.
Qed.

Lemma locality_free :
  contains n ("for-sale-in-" ++ Generator.City cfg ++ "-"
                ++ Generator.State cfg ++ "-" ++ Generator.Zip cfg) = false.
Proof.
  destruct elsewhere_fields as (_ & Hc & Hs & Hz & _).
  change ("for-sale-in-" ++ Generator.City cfg ++ "-"
            ++ Generator.State cfg ++ "-" ++ Generator.Zip cfg)
    with ("for-sale-in"
            ++ String "-" (Generator.City cfg
                 ++ String "-" (Generator.State cfg
                      ++ String "-" (Generator.Zip cfg)))).
  apply vin_split; [reflexivity | apply vin_too_long; simpl; lia |].
  apply vin_split; [reflexivity | exact Hc |].
  apply vin_split; [reflexivity | exact Hs | exact Hz].
Qed.

Lemma Slug_Tail_free : contains n (Generator.Slug_Tail cfg v) = false.
Proof.
  destruct elsewhere_fields as (_ & _ & _ & _ & Hy & Hk & Hm & Ht & _).
  destruct (contains n (Generator.Slug_Tail cfg v)) eqn:E; [|reflexivity].
  exfalso. unfold Generator.Slug_Tail in E.
  apply (contains_join is_alnum n "-" _ vin_alnum eq_refl vin_not_empty) in E
    as (sp & Hin & Hsp).
  apply in_flat_map in Hin as (x & Hx & Hin).
  assert (Hfree : contains n (Generator.ToString x) = false).
  { cbn [In] in Hx.
    destruct Hx as [<- | [<- | [<- | [<- | [<- | [<- | []]]]]]].
    - apply vin_too_long. cbn. lia.
    - exact (generator_text_free _ Hy).
    - exact (generator_text_free _ Hk).
    - exact (generator_text_free _ Hm).
    - exact (generator_text_free _ Ht).
    - exact locality_free. }
  destruct (Generator.Slug_Part x) as [sp'|] eqn:Ex; [|destruct Hin].
  destruct (is_empty sp'); [destruct Hin|].
  destruct Hin as [<- | []].
  rewrite (Slug_Part_occurrence x sp' Ex Hsp) in Hfree. discriminate.
Qed.

Lemma client_slug_free : contains n (Client.slug v) = false.
Proof.
  destruct elsewhere_fields as (_ & _ & _ & _ & Hy & Hk & Hm & Ht & _).
  destruct (contains n (Client.slug v)) eqn:E; [|reflexivity].
  exfalso. unfold Client.slug in E.
  apply (contains_join is_alnum n "-" _ vin_alnum eq_refl vin_not_empty) in E
    as (sp & Hin & Hsp).
  apply filter_In in Hin as [Hin _].
  apply in_map_iff in Hin as (x & <- & Hx).
  apply filter_In in Hx as [Hx _].
  apply slugPart_occurrence in Hsp.
  assert (Hfree : contains n (Client.ToString x) = false).
  { cbn [In] in Hx.
    destruct Hx as [<- | [<- | [<- | [<- | [<- | [<- | []]]]]]].
    - apply vin_too_long. cbn. lia.
    - exact (client_text_free _ Hy).
    - exact (client_text_free _ Hk).
    - exact (client_text_free _ Hm).
    - exact (client_text_free _ Ht).
    - change (Client.ToString (VStr "for-sale-in-Greenville-NC-27858"))
        with ("for-sale-in"
                ++ String "-" ("Greenville"
                     ++ String "-" ("NC" ++ String "-" "27858"))).
      repeat (apply vin_split; [reflexivity | apply vin_too_long; simpl; lia |]).
      apply vin_too_long. simpl. lia. }
  congruence.
Qed.

Lemma Slug_Id_free : contains n (Generator.Slug_Id v) = false.
Proof.
  destruct elsewhere_fields as (_ & _ & _ & _ & _ & _ & _ & _ & Hid).
  destruct (Client.ToBoolean (first_truthy v)) eqn:E.
  - rewrite generator_selected by exact E.
    unfold identity_mentions in Hid.
    destruct (first_truthy v) as [| |[]|z|s]; try discriminate; trivial.
    apply vin_too_long. simpl. lia.
  - apply vin_too_long. rewrite generator_fallback_length by exact E. lia.
Qed.

Lemma vehicleId_free : contains n (Client.vehicleId v) = false.
Proof.
  destruct elsewhere_fields as (_ & _ & _ & _ & _ & _ & _ & _ & Hid).
  destruct (Client.ToBoolean (first_truthy v)) eqn:E.
  - rewrite client_selected by exact E.
    unfold identity_mentions in Hid.
    destruct (first_truthy v) as [| |[]|z|s]; try discriminate; trivial.
    apply vin_too_long. simpl. lia.
  - apply vin_too_long. rewrite client_fallback_length by exact E. lia.
Qed.

Lemma relDir_slash_free :
  contains n (Generator.relDir cfg v ++ "/") = false.
Proof.
  assert (E : Generator.relDir cfg v ++ "/"
              = "vdp" ++ String "/" (Generator.Slug_Id v
                  ++ String "/" (Generator.Slug_Tail cfg v ++ String "/" ""))).
  { unfold Generator.relDir. rewrite !app_str_assoc. reflexivity. }
  rewrite E.
  apply (vin_split "vdp" "/"); [reflexivity | apply vin_too_long; cbn; lia |].
  apply vin_split; [reflexivity | exact Slug_Id_free |].
  apply vin_split; [reflexivity | exact Slug_Tail_free |].
  apply vin_too_long. cbn. lia.
Qed.

End AddressFacts.

Section AddressClaims.
Import Text Notions.

(** C3.  The code breaks the rule it states for itself ("never expose VIN
    in URLs"): when the VIN is also entered as the stock number, the stock
    number is the identifier, and the VIN is part of the page path, of the
    sitemap location and of the link built by the loader. *)
Lemma C3_vin_entered_as_stock_number_reaches_the_address :
  V.vin vin_as_stock = VStr "1FTEW1EP0LKE12345"
  /\ contains "1FTEW1EP0LKE12345"
       (Generator.pagePath Generator.defaults vin_as_stock) = true
  /\ contains "1FTEW1EP0LKE12345"
       (Generator.pageUrl Generator.defaults vin_as_stock) = true
  /\ contains "1FTEW1EP0LKE12345" (Client.buildVDPUrl vin_as_stock) = true.
Proof. repeat split; vm_compute; reflexivity. Qed.

(** X22.  The [vin] field itself never reaches an address.  Let the [vin]
    of a record be a VIN of 17 letters or digits that occurs in no other
    input of the address: not in the site URL, not in the city, state or
    zip, not in the text of [year], [make], [model], [trim], and not in the
    identity field that is kept, once sanitized; and let the numbers among
    these fields be integers up to 2^53 - 1 in magnitude, which both
    runtimes print exactly.  Then the page path, the sitemap location (the
    page URL) and the link built by the loader do not contain the VIN. *)
Theorem X22_vin_field_never_copied_into_the_address
    (cfg : Generator.Config) (v : Vehicle) (vinText : string) :
  V.vin v = VStr vinText ->
  well_formed_vin vinText = true ->
  Shapes.exact_address_inputs v = true ->
  occurs_elsewhere vinText cfg v = false ->
  contains vinText (Generator.pagePath cfg v) = false
  /\ contains vinText (Generator.pageUrl cfg v) = false
  /\ contains vinText (Client.buildVDPUrl v) = false.
Proof.
  intros _ Hvin _ Helse.
  pose proof (relDir_slash_free vinText Hvin cfg v Helse) as Hrel.
  split; [exact Hrel|]. split.
  - change (Generator.pageUrl cfg v)
      with (Generator.TrimEnd Generator.is_slash (Generator.SiteUrl cfg)
              ++ String "/" (Generator.relDir cfg v ++ "/")).
    apply vin_split; [exact Hvin | reflexivity | | exact Hrel].
    destruct (contains vinText
                (Generator.TrimEnd Generator.is_slash (Generator.SiteUrl cfg)))
      eqn:E; [|reflexivity].
    apply contains_drop_while_end in E.
    destruct (elsewhere_fields vinText cfg v Helse) as (Hs & _). congruence.
  - change (Client.buildVDPUrl v)
      with ("" ++ String "/" ("vdp" ++ String "/" (Client.vehicleId v
              ++ String "/" (Client.slug v ++ String "/" "")))).
    apply vin_split; [exact Hvin | reflexivity | apply vin_too_long; [exact Hvin | cbn; lia] |].
    apply vin_split; [exact Hvin | reflexivity | apply vin_too_long; [exact Hvin | cbn; lia] |].
    apply vin_split; [exact Hvin | reflexivity | exact (vehicleId_free vinText Hvin cfg v Helse) |].
    apply vin_split; [exact Hvin | reflexivity | exact (client_slug_free vinText Hvin cfg v Helse) |].
    apply vin_too_long; [exact Hvin | cbn; lia].
Qed.

End AddressClaims.

Lemma X22_vin_field_never_copied_into_the_address_witness :
  Text.contains "1FTEW1EP0LKE12345" (Generator.pagePath Generator.defaults f150)
  = false
  /\ Text.contains "1FTEW1EP0LKE12345" (Generator.pageUrl Generator.defaults f150)
     = false
  /\ Text.contains "1FTEW1EP0LKE12345" (Client.buildVDPUrl f150) = false.
Proof.
  apply (X22_vin_field_never_copied_into_the_address
           Generator.defaults f150 "1FTEW1EP0LKE12345");
    [reflexivity | vm_compute; reflexivity | vm_compute; reflexivity
    | vm_compute; reflexivity].
Defined.

(* ================================================================== *)
(** * Further properties of the code *)

(** ** [utils.js] *)

Section HexDigits.
Import Text Utils Notions Shapes.

Lemma hexDigit_hex (d : Z) : 0 <= d < 16 -> is_hex (hexDigit d) = true.
Proof.
  intros H.
  assert (E : d = 0 \/ d = 1 \/ d = 2 \/ d = 3 \/ d = 4 \/ d = 5 \/ d = 6
              \/ d = 7 \/ d = 8 \/ d = 9 \/ d = 10 \/ d = 11 \/ d = 12
              \/ d = 13 \/ d = 14 \/ d = 15) by lia.
  repeat (destruct E as [-> | E]; [reflexivity|]).
  now subst d.
Qed.

Lemma hexDigit_value (d : Z) : 0 <= d < 16 -> hex_digit_value (hexDigit d) = d.
Proof.
  intros H.
  assert (E : d = 0 \/ d = 1 \/ d = 2 \/ d = 3 \/ d = 4 \/ d = 5 \/ d = 6
              \/ d = 7 \/ d = 8 \/ d = 9 \/ d = 10 \/ d = 11 \/ d = 12
              \/ d = 13 \/ d = 14 \/ d = 15) by lia.
  repeat (destruct E as [-> | E]; [reflexivity|]).
  now subst d.
Qed.

Lemma hexfix_hex (k : nat) : forall (n : Z) (acc : string),
  forallb_str is_hex acc = true -> forallb_str is_hex (hexfix k n acc) = true.
Proof.
  induction k as [|k IH]; intros n acc Hacc; [exact Hacc|].
  cbn [hexfix]. apply IH. cbn [forallb_str].
  rewrite hexDigit_hex, Hacc; [reflexivity|].
  apply Z.mod_pos_bound. lia.
Qed.

Lemma hexfix_length (k : nat) : forall (n : Z) (acc : string),
  String.length (hexfix k n acc) = (k + String.length acc)%nat.
Proof.
  induction k as [|k IH]; intros n acc; [reflexivity|].
  cbn [hexfix]. rewrite IH. cbn [String.length]. lia.
Qed.

Lemma hexfix_value (k : nat) : forall (n : Z) (acc : string) (a : Z),
  hex_value_onto (hexfix k n acc) a
  = hex_value_onto acc (16 ^ Z.of_nat k * a + n mod 16 ^ Z.of_nat k).
Proof.
  induction k as [|k IH]; intros n acc a.
  - cbn [hexfix]. change (16 ^ Z.of_nat 0) with 1.
    rewrite Z.mod_1_r. f_equal. lia.
  - cbn [hexfix]. rewrite IH. cbn [hex_value_onto].
    rewrite hexDigit_value by (apply Z.mod_pos_bound; lia).
    f_equal. rewrite pow16_succ.
    rewrite (Z.rem_mul_r n 16 (16 ^ Z.of_nat k)) by lia. lia.
Qed.

(** X1.  For every message, [sha1Hex] returns 40 characters, each a
    lowercase hexadecimal digit. *)
Theorem X1_sha1Hex_is_forty_hex_digits (msg : string) :
  String.length (sha1Hex msg) = 40%nat
  /\ forallb_str is_hex (sha1Hex msg) = true.
Proof.
  split; [apply sha1Hex_length|].
  unfold sha1Hex. destruct (digest (utf8 msg)) as [[[[h0 h1] h2] h3] h4].
  rewrite !forallb_str_app, !toHex_hexfix.
  now rewrite !hexfix_hex.
Qed.

(** X2.  [toHex] writes a 32-bit value without loss: it returns 8 hexadecimal
    digits whose value is the argument modulo 2^32, so two arguments have
    the same text exactly when they are the same 32-bit value. *)
Theorem X2_toHex_reads_back (i : Z) :
  String.length (toHex i) = 8%nat
  /\ forallb_str is_hex (toHex i) = true
  /\ hex_value (toHex i) = i mod 4294967296
  /\ (forall j, toHex i = toHex j <-> i mod 4294967296 = j mod 4294967296).
Proof.
  assert (Hv : forall k, hex_value (toHex k) = k mod 4294967296).
  { intros k. rewrite toHex_hexfix. unfold hex_value.
    rewrite hexfix_value. cbn [hex_value_onto].
    change (16 ^ Z.of_nat 8) with 4294967296. unfold int32.
    rewrite Z.mod_mod by lia. lia. }
  split; [apply toHex_length|]. split.
  - rewrite toHex_hexfix. now apply hexfix_hex.
  - split; [apply Hv|]. intros j. split.
    + intros E. rewrite <- !Hv. now rewrite E.
    + intros E. rewrite !toHex_hexfix. unfold int32. now rewrite E.
Qed.

End HexDigits.

Section Padding.
Import Text Utils Notions Shapes.

Lemma length_array_or (i : nat) (x : Z) : forall words : list Z,
  List.length (array_or i x words) = Nat.max (S i) (List.length words).
Proof.
  induction i as [|i IH]; intros [|w ws]; cbn [array_or List.length];
    try rewrite IH; cbn [List.length]; lia.
Qed.

Lemma length_array_set (i : nat) (x : Z) : forall words : list Z,
  List.length (array_set i x words) = Nat.max (S i) (List.length words).
Proof.
  induction i as [|i IH]; intros [|w ws]; cbn [array_set List.length];
    try rewrite IH; cbn [List.length]; lia.
Qed.

Lemma nth_array_set (i : nat) (x : Z) : forall words : list Z,
  nth i (array_set i x words) 0 = x.
Proof.
  induction i as [|i IH]; intros [|w ws]; cbn [array_set nth]; auto.
Qed.

Lemma length_pack (bytes : list Z) : forall (i : Z) (words : list Z),
  0 <= i ->
  (List.length (pack bytes i words)
   <= Nat.max (List.length words)
        (Z.to_nat ((i + Z.of_nat (List.length bytes) + 3) / 4)))%nat.
Proof.
  induction bytes as [|b bytes IH]; intros i words Hi.
  - cbn [pack List.length]. lia.
  - cbn [pack]. specialize (IH (i + 1) (array_or (Z.to_nat (Z.shiftr i 2))
                      (Z.shiftl b (24 - i mod 4 * 8)) words) ltac:(lia)).
    rewrite length_array_or in IH. rewrite Z.shiftr_div_pow2 in IH by lia.
    change (2 ^ 2) with 4 in IH.
    rewrite Z.shiftr_div_pow2 by lia. change (2 ^ 2) with 4.
    cbn [List.length]. rewrite Nat2Z.inj_succ.
    assert (H1 : i / 4 + 1 <= (i + Z.succ (Z.of_nat (List.length bytes)) + 3) / 4)
      by (Z.div_mod_to_equations; lia).
    assert (H2 : (i + 1 + Z.of_nat (List.length bytes) + 3) / 4
                 = (i + Z.succ (Z.of_nat (List.length bytes)) + 3) / 4)
      by (f_equal; lia).
    assert (H3 : 0 <= i / 4) by (Z.div_mod_to_equations; lia).
    rewrite H2 in IH. lia.
Qed.

(** X3.  [sha1Hex] pads a message to whole blocks of 16 words.  For a
    message of [L] bytes with [8 L + 64] below 2^31, where the 32-bit shifts
    of the padding do not wrap, the word array has
    [16 * ((8 L + 64) / 512 + 1)] entries, its last entry is the bit length
    [8 L], and the block loop runs once per block. *)
Theorem X3_sha1_padding_fills_whole_blocks (bytes : list Z) :
  8 * Z.of_nat (List.length bytes) + 64 < 2147483648 ->
  let L := Z.of_nat (List.length bytes) in
  let blocks := (8 * L + 64) / 512 + 1 in
  Z.of_nat (List.length (padded bytes)) = 16 * blocks
  /\ nth (List.length (padded bytes) - 1) (padded bytes) 0 = 8 * L
  /\ Z.of_nat (iterations (List.length (padded bytes))) = blocks.
Proof.
  intros _ L blocks.
  assert (HL : 0 <= L) by (unfold L; lia).
  assert (Hb : 0 <= (8 * L + 64) / 512) by (Z.div_mod_to_equations; lia).
  assert (Hlen : List.length (padded bytes)
                 = S (Z.to_nat (16 * ((8 * L + 64) / 512) + 15))).
  { unfold padded. fold L.
    rewrite length_array_set, length_array_or.
    rewrite !Z.shiftr_div_pow2, Z.shiftl_mul_pow2 by lia.
    change (2 ^ 9) with 512. change (2 ^ 4) with 16. change (2 ^ 5) with 32.
    replace (L * 8) with (8 * L) by lia.
    pose proof (length_pack bytes 0 [] (Z.le_refl 0)) as Hp.
    fold L in Hp. cbn [List.length Z.add] in Hp.
    replace ((8 * L + 64) / 512 * 16 + 15)
      with (16 * ((8 * L + 64) / 512) + 15) by lia.
    assert (H1 : 8 * L / 32 < 16 * ((8 * L + 64) / 512) + 15)
      by (Z.div_mod_to_equations; lia).
    assert (H2 : (L + 3) / 4 <= 16 * ((8 * L + 64) / 512) + 15)
      by (Z.div_mod_to_equations; lia).
    assert (H3 : 0 <= 8 * L / 32) by (Z.div_mod_to_equations; lia).
    lia. }
  split; [rewrite Hlen; unfold blocks; lia|]. split.
  - rewrite Hlen. cbn [Nat.sub]. rewrite Nat.sub_0_r.
    unfold padded. fold L.
    rewrite !Z.shiftr_div_pow2, Z.shiftl_mul_pow2 by lia.
    change (2 ^ 9) with 512. change (2 ^ 4) with 16.
    replace (L * 8) with (8 * L) by lia.
    replace ((8 * L + 64) / 512 * 16 + 15)
      with (16 * ((8 * L + 64) / 512) + 15) by lia.
    rewrite nth_array_set. lia.
  - rewrite Hlen. unfold iterations, blocks.
    replace (S (Z.to_nat (16 * ((8 * L + 64) / 512) + 15)) + 15)%nat
      with (16 * (Z.to_nat ((8 * L + 64) / 512) + 1) + 15)%nat by lia.
    replace (16 * (Z.to_nat ((8 * L + 64) / 512) + 1) + 15)%nat
      with (15 + (Z.to_nat ((8 * L + 64) / 512) + 1) * 16)%nat by lia.
    rewrite Nat.div_add by lia. cbn [Nat.div Nat.divmod fst]. lia.
Qed.

End Padding.

Lemma X3_sha1_padding_fills_whole_blocks_witness :
  Z.of_nat (List.length (Utils.padded (Utils.utf8 "abc"))) = 16
  /\ nth 15 (Utils.padded (Utils.utf8 "abc")) 0 = 24
  /\ Z.of_nat (Utils.iterations
                 (List.length (Utils.padded (Utils.utf8 "abc")))) = 1.
Proof.
  apply (X3_sha1_padding_fills_whole_blocks (Utils.utf8 "abc")).
  vm_compute. reflexivity.
Defined.

Section Rotation.
Import Text Utils Notions Shapes.

Lemma ToInt32_range (x : Z) : -2147483648 <= ToInt32 x < 2147483648.
Proof.
  unfold ToInt32.
  pose proof (Z.mod_pos_bound (x + 2147483648) 4294967296 ltac:(lia)). lia.
Qed.

Lemma ToInt32_mod (x : Z) : ToInt32 x mod 4294967296 = x mod 4294967296.
Proof.
  unfold ToInt32. rewrite Zminus_mod_idemp_l. f_equal. lia.
Qed.

Lemma ToInt32_small (x : Z) :
  -2147483648 <= x < 2147483648 -> ToInt32 x = x.
Proof.
  intros Hx. unfold ToInt32.
  rewrite Z.mod_small by lia. lia.
Qed.

Lemma low_bits (x i : Z) :
  0 <= i < 32 -> Z.testbit (x mod 4294967296) i = Z.testbit x i.
Proof.
  intros Hi. change 4294967296 with (2 ^ 32).
  apply Z.mod_pow2_bits_low. lia.
Qed.

Lemma ToInt32_bit (x i : Z) :
  0 <= i < 32 -> Z.testbit (ToInt32 x) i = Z.testbit x i.
Proof.
  intros Hi. rewrite <- (low_bits (ToInt32 x)) by exact Hi.
  rewrite ToInt32_mod. now apply low_bits.
Qed.

(** Two signed 32-bit integers with the same 32 low bits are equal. *)
Lemma signed_bits_inj (a b : Z) :
  -2147483648 <= a < 2147483648 -> -2147483648 <= b < 2147483648 ->
  (forall i, 0 <= i < 32 -> Z.testbit a i = Z.testbit b i) -> a = b.
Proof.
  intros Ha Hb Hbits.
  assert (E : a mod 4294967296 = b mod 4294967296).
  { apply Z.bits_inj'. intros i Hi.
    destruct (Z.lt_ge_cases i 32) as [Hlt | Hge].
    - rewrite !low_bits by lia. apply Hbits. lia.
    - change 4294967296 with (2 ^ 32).
      rewrite !Z.mod_pow2_bits_high by lia. reflexivity. }
  rewrite <- (ToInt32_small a Ha), <- (ToInt32_small b Hb).
  unfold ToInt32.
  rewrite (Zplus_mod a), (Zplus_mod b), E. reflexivity.
Qed.

Lemma rotl_bit (n s i : Z) :
  0 < s < 32 -> 0 <= i < 32 ->
  Z.testbit (rotl n s) i = Z.testbit n ((i - s) mod 32).
Proof.
  intros Hs Hi. unfold rotl.
  rewrite ToInt32_bit, Z.lor_spec, ToInt32_bit by exact Hi.
  rewrite (Z.mod_small s 32), (Z.mod_small (32 - s) 32) by lia.
  rewrite Z.shiftl_spec, Z.shiftr_spec by lia.
  destruct (Z.lt_ge_cases i s) as [Hlt | Hge].
  - rewrite (Z.testbit_neg_r (ToInt32 n) (i - s)) by lia.
    unfold int32. rewrite low_bits by lia. cbn [orb].
    f_equal. apply Z.mod_unique with (q := -1); lia.
  - rewrite ToInt32_bit by lia.
    unfold int32. change 4294967296 with (2 ^ 32).
    rewrite (Z.mod_pow2_bits_high n 32 (i + (32 - s))) by lia.
    rewrite orb_false_r. f_equal. symmetry. apply Z.mod_small. lia.
Qed.

Lemma rotl_range (n s : Z) : -2147483648 <= rotl n s < 2147483648.
Proof. unfold rotl. apply ToInt32_range. Qed.

(** X4.  [rotl] is the rotation of the 32 low bits: for every integer [n]
    and [0 < s < 32] the result is a signed 32-bit integer whose bit [i] is
    the bit [(i - s) mod 32] of [n], and rotating on by [32 - s] gives the
    signed 32-bit reading of [n], which is [n] itself when [n] is a signed
    32-bit integer. *)
Theorem X4_rotl_rotates_the_32_bits (n s : Z) :
  0 < s < 32 ->
  -2147483648 <= rotl n s < 2147483648
  /\ (forall i, 0 <= i < 32 ->
        Z.testbit (rotl n s) i = Z.testbit n ((i - s) mod 32))
  /\ rotl (rotl n s) (32 - s) = ToInt32 n
  /\ (-2147483648 <= n < 2147483648 -> rotl (rotl n s) (32 - s) = n).
Proof.
  intros Hs.
  assert (Hback : rotl (rotl n s) (32 - s) = ToInt32 n).
  { apply signed_bits_inj; [apply rotl_range | apply ToInt32_range |].
    intros i Hi.
    assert (Hj : 0 <= (i - (32 - s)) mod 32 < 32)
      by (apply Z.mod_pos_bound; lia).
    rewrite rotl_bit by lia. rewrite rotl_bit by lia.
    rewrite ToInt32_bit by exact Hi.
    f_equal. rewrite Zminus_mod_idemp_l.
    replace (i - (32 - s) - s) with (i + (-1) * 32) by lia.
    rewrite Z.mod_add by lia. apply Z.mod_small. lia. }
  split; [apply rotl_range|]. split; [|split].
  - intros i Hi. now apply rotl_bit.
  - exact Hback.
  - intros Hn. rewrite Hback. now apply ToInt32_small.
Qed.

End Rotation.

Lemma X4_rotl_rotates_the_32_bits_witness :
  Utils.rotl 3 31 = -2147483647
  /\ Utils.rotl (Utils.rotl 2147483649 1) 31 = -2147483647
  /\ Utils.rotl (Utils.rotl (-5) 7) 25 = -5.
Proof.
  split; [reflexivity|]. split.
  - exact (proj1 (proj2 (proj2
             (X4_rotl_rotates_the_32_bits 2147483649 1 ltac:(lia))))).
  - apply (X4_rotl_rotates_the_32_bits (-5) 7); lia.
Defined.

(** ** Slugs in normal form *)

Section SlugNormalForm.
Import Text Notions Shapes.

#[local] Abbreviation na := Generator.not_alnum.
#[local] Abbreviation hy := Generator.is_hyphen.

Lemma alnum_not_hyphen (c : ascii) : is_alnum c = true -> hy c = false.
Proof. destruct c as [[] [] [] [] [] [] [] []]; vm_compute; congruence. Qed.

Lemma na_alnum (c : ascii) : na c = false -> is_alnum c = true.
Proof. unfold na. now destruct (is_alnum c). Qed.

Lemma na_not_hyphen (c : ascii) : na c = false -> hy c = false.
Proof. intros H. now apply alnum_not_hyphen, na_alnum. Qed.

Lemma drop_hyphen_squash (s : string) : forall in_run : bool,
  drop_while hy (squash_from in_run na "-" s)
  = squash_from false na "-" (drop_while na s).
Proof.
  induction s as [|c s IH]; intros in_run; [reflexivity|].
  cbn [squash_from drop_while]. destruct (na c) eqn:E.
  - destruct in_run; [apply IH|]. cbn [drop_while].
    change (hy "-") with true. cbv iota. apply IH.
  - cbn [drop_while squash_from]. now rewrite E, (na_not_hyphen c E).
Qed.

Lemma squash_trimmed_empty (t : string) : forall in_run : bool,
  is_empty (squash_from in_run na "-" (drop_while_end na t))
  = is_empty (drop_while_end na t).
Proof.
  induction t as [|x t IH]; intros in_run; [reflexivity|].
  cbn [drop_while_end].
  destruct (is_empty (drop_while_end na t)) eqn:Et; cbn [andb].
  - destruct (na x) eqn:Ex; [reflexivity|].
    cbn [squash_from]. now rewrite Ex.
  - cbn [squash_from]. destruct (na x); [|reflexivity].
    destruct in_run; [|reflexivity]. now rewrite IH.
Qed.

Lemma is_empty_eq (s : string) : is_empty s = true -> s = EmptyString.
Proof. destruct s; [reflexivity | discriminate]. Qed.

Lemma drop_end_hyphen_squash (t : string) : forall in_run : bool,
  drop_while_end hy (squash_from in_run na "-" t)
  = squash_from in_run na "-" (drop_while_end na t).
Proof.
  induction t as [|c t IH]; intros in_run; [reflexivity|].
  cbn [squash_from drop_while_end]. destruct (na c) eqn:E.
  - rewrite andb_true_r. destruct in_run.
    + rewrite IH. destruct (is_empty (drop_while_end na t)) eqn:Et.
      * now rewrite (is_empty_eq _ Et).
      * cbn [squash_from]. now rewrite E.
    + cbn [drop_while_end]. change (hy "-") with true. rewrite andb_true_r.
      rewrite IH, squash_trimmed_empty.
      destruct (is_empty (drop_while_end na t)); [reflexivity|].
      cbn [squash_from]. now rewrite E.
  - rewrite andb_false_r. cbn [drop_while_end squash_from].
    now rewrite E, (na_not_hyphen c E), andb_false_r, IH.
Qed.

(** Squashing and then stripping hyphens is stripping first and squashing
    what is left. *)
Lemma clean_normal_form (s : string) :
  clean s = squash_runs na "-" (strip na s).
Proof.
  unfold clean, strip, squash_runs.
  now rewrite drop_hyphen_squash, drop_end_hyphen_squash.
Qed.

Section Narrower.
Variables p q : ascii -> bool.
Hypothesis p_q : forall c, p c = true -> q c = true.

Lemma q_false_p (c : ascii) : q c = false -> p c = false.
Proof.
  intros H. destruct (p c) eqn:E; [|reflexivity].
  apply p_q in E. congruence.
Qed.

Lemma drop_while_narrower (s : string) :
  drop_while q (drop_while p s) = drop_while q s.
Proof.
  induction s as [|c s IH]; [reflexivity|].
  cbn [drop_while]. destruct (p c) eqn:E.
  - now rewrite (p_q c E).
  - reflexivity.
Qed.

Lemma drop_while_end_narrower (t : string) :
  drop_while_end q (drop_while_end p t) = drop_while_end q t.
Proof.
  induction t as [|c t IH]; [reflexivity|].
  cbn [drop_while_end].
  destruct (is_empty (drop_while_end p t) && p c) eqn:E.
  - apply andb_true_iff in E as [Et Ec].
    rewrite <- IH, (is_empty_eq _ Et). cbn [drop_while_end is_empty andb].
    now rewrite (p_q c Ec).
  - cbn [drop_while_end]. now rewrite IH.
Qed.

Lemma drop_while_commutes (u : string) :
  drop_while q (drop_while_end p u) = drop_while_end p (drop_while q u).
Proof.
  induction u as [|c u IH]; [reflexivity|].
  cbn [drop_while_end drop_while]. destruct (q c) eqn:Eq.
  - rewrite <- IH.
    destruct (is_empty (drop_while_end p u) && p c) eqn:E.
    + apply andb_true_iff in E as [Et _]. now rewrite (is_empty_eq _ Et).
    + cbn [drop_while]. now rewrite Eq.
  - rewrite (q_false_p c Eq), andb_false_r. cbn [drop_while drop_while_end].
    now rewrite Eq, (q_false_p c Eq), andb_false_r.
Qed.

Lemma strip_narrower (s : string) : strip q (strip p s) = strip q s.
Proof.
  unfold strip.
  now rewrite drop_while_commutes, drop_while_narrower, drop_while_end_narrower.
Qed.

End Narrower.

(** Trimming characters that are not letters or digits before the
    sanitization changes nothing. *)
Lemma clean_strip (p : ascii -> bool) (s : string) :
  (forall c, p c = true -> na c = true) -> clean (strip p s) = clean s.
Proof.
  intros Hp. rewrite !clean_normal_form. now rewrite (strip_narrower p na Hp).
Qed.

End SlugNormalForm.

Section TidySlugs.
Import Text Notions Shapes.

#[local] Abbreviation na := Generator.not_alnum.
#[local] Abbreviation hy := Generator.is_hyphen.

Lemma trimmed_tail (c : ascii) (t : string) :
  drop_while_end na (String c t) = String c t ->
  drop_while_end na t = t /\ (na c = true -> is_empty t = false).
Proof.
  cbn [drop_while_end].
  destruct (is_empty (drop_while_end na t) && na c) eqn:E; [discriminate|].
  intros H. injection H as H. split; [exact H|].
  intros Hc. rewrite H, Hc, andb_true_r in E. exact E.
Qed.

Lemma tidy_squash (t : string) :
  drop_while_end na t = t ->
  tidy_from false (squash_from false na "-" t) = true
  /\ (is_empty t = false -> tidy_from true (squash_from true na "-" t) = true).
Proof.
  induction t as [|c t IH]; intros Ht; [split; [reflexivity | discriminate]|].
  apply trimmed_tail in Ht as [Ht Hc]. destruct (IH Ht) as [IH1 IH2].
  cbn [squash_from]. destruct (na c) eqn:E.
  - specialize (IH2 (Hc eq_refl)). split; [|intros _; exact IH2].
    cbn [tidy_from]. change (hy "-") with true. cbv iota. exact IH2.
  - assert (Hal : is_alnum c = true) by now apply na_alnum.
    split; [|intros _]; cbn [tidy_from];
      now rewrite (alnum_not_hyphen c Hal), Hal, IH1.
Qed.

Lemma drop_while_head (p : ascii -> bool) (s : string) (c : ascii) (r : string) :
  drop_while p s = String c r -> p c = false.
Proof.
  induction s as [|x s IH]; [discriminate|].
  cbn [drop_while]. destruct (p x) eqn:E; [exact IH|].
  intros H. now injection H as <- _.
Qed.

Lemma drop_while_end_head (p : ascii -> bool) (s : string) (c : ascii) (r : string) :
  drop_while_end p s = String c r -> exists r', s = String c r'.
Proof.
  destruct s as [|x s]; [discriminate|]. cbn [drop_while_end].
  destruct (is_empty (drop_while_end p s) && p x); [discriminate|].
  intros H. injection H as <- _. now exists s.
Qed.

(** A sanitized text is empty or tidy. *)
Lemma clean_tidy (s : string) :
  is_empty (clean s) = false -> tidy (clean s) = true.
Proof.
  rewrite clean_normal_form. unfold squash_runs, strip.
  destruct (drop_while_end na (drop_while na s)) as [|c t] eqn:E;
    [discriminate|]. intros _.
  assert (Hfix : drop_while_end na (String c t) = String c t).
  { rewrite <- E. apply (drop_while_end_narrower na na). auto. }
  destruct (drop_while_end_head _ _ _ _ E) as [r' Hr'].
  pose proof (drop_while_head _ _ _ _ Hr') as Hc.
  apply trimmed_tail in Hfix as [Ht _]. destruct (tidy_squash t Ht) as [H1 _].
  unfold tidy. cbn [squash_from]. rewrite Hc. cbn [tidy_from].
  now rewrite (na_not_hyphen c Hc), (na_alnum c Hc), H1.
Qed.

Lemma tidy_join2 (b : string) : forall (a : string) (after_hyphen : bool),
  tidy_from after_hyphen a = true -> tidy b = true ->
  tidy_from after_hyphen (a ++ String "-" b) = true.
Proof.
  intros a. induction a as [|c a IH]; intros ah Ha Hb.
  - cbn [tidy_from] in Ha. cbn [append tidy_from].
    change (hy "-") with true. cbv iota. now rewrite Ha.
  - cbn [append tidy_from] in *. destruct (hy c).
    + apply andb_true_iff in Ha as [H1 H2]. now rewrite H1, IH.
    + apply andb_true_iff in Ha as [H1 H2]. now rewrite H1, IH.
Qed.

Lemma tidy_join (l : list string) :
  l <> [] -> Forall (fun s => tidy s = true) l -> tidy (join "-" l) = true.
Proof.
  intros Hne H. induction H as [|s l Hs Hl IH]; [congruence|].
  destruct l as [|s' l]; [exact Hs|].
  change (join "-" (s :: s' :: l)) with (s ++ String "-" (join "-" (s' :: l))).
  apply tidy_join2; [exact Hs|]. apply IH. discriminate.
Qed.

(** What a tidy text looks like. *)
Lemma tidy_chars (s : string) : forall after_hyphen : bool,
  tidy_from after_hyphen s = true -> forallb_str slug_char s = true.
Proof.
  induction s as [|c s IH]; intros ah H; [reflexivity|].
  cbn [tidy_from] in H. cbn [forallb_str]. unfold slug_char at 1.
  destruct (hy c) eqn:E; apply andb_true_iff in H as [H1 H2];
    rewrite (IH _ H2); [now rewrite orb_true_r | now rewrite H1].
Qed.

Lemma tidy_no_double_hyphen (s : string) : forall after_hyphen : bool,
  tidy_from after_hyphen s = true -> contains "--" s = false.
Proof.
  induction s as [|c s IH]; intros ah H; [reflexivity|].
  cbn [tidy_from] in H. cbn [contains starts_with].
  destruct (hy c) eqn:E; apply andb_true_iff in H as [H1 H2];
    rewrite (IH _ H2), orb_false_r.
  - destruct s as [|d s]; [now rewrite andb_false_r|].
    cbn [tidy_from] in H2. destruct (hy d) eqn:Ed; [discriminate|].
    replace (Ascii.eqb "-" d) with false; [now rewrite andb_false_r|].
    symmetry. apply Ascii.eqb_neq. intros <-. discriminate.
  - replace (Ascii.eqb "-" c) with false; [reflexivity|].
    symmetry. apply Ascii.eqb_neq. intros <-. discriminate.
Qed.

Lemma tidy_no_trailing (p : ascii -> bool) (s : string) :
  (forall c, p c = true -> is_alnum c = false) ->
  forall after_hyphen : bool,
    tidy_from after_hyphen s = true -> drop_while_end p s = s.
Proof.
  intros Hp. induction s as [|c s IH]; intros ah H; [reflexivity|].
  cbn [tidy_from] in H. cbn [drop_while_end].
  destruct (hy c) eqn:E; apply andb_true_iff in H as [H1 H2];
    rewrite (IH _ H2).
  - destruct s; [discriminate | reflexivity].
  - destruct (p c) eqn:Ep; [|now rewrite andb_false_r].
    apply Hp in Ep. congruence.
Qed.

Lemma tidy_not_empty (s : string) : tidy s = true -> is_empty s = false.
Proof. destruct s; [discriminate | reflexivity]. Qed.

Lemma tidy_no_leading_hyphen (s : string) :
  tidy s = true -> starts_with "-" s = false.
Proof.
  destruct s as [|c s]; [discriminate|]. unfold tidy. cbn [tidy_from starts_with].
  destruct (hy c) eqn:E; [discriminate|]. intros _.
  replace (Ascii.eqb "-" c) with false; [reflexivity|].
  symmetry. apply Ascii.eqb_neq. intros <-. discriminate.
Qed.

End TidySlugs.

Section SlugParts.
Import Text Notions Shapes.

#[local] Abbreviation na := Generator.not_alnum.
#[local] Abbreviation hy := Generator.is_hyphen.

Lemma generator_space_na (c : ascii) : Generator.is_space c = true -> na c = true.
Proof. destruct c as [[] [] [] [] [] [] [] []]; vm_compute; congruence. Qed.

Lemma client_space_na (c : ascii) : Client.is_space c = true -> na c = true.
Proof. destruct c as [[] [] [] [] [] [] [] []]; vm_compute; congruence. Qed.

Lemma hyphen_is (c : ascii) : hy c = true -> c = "-"%char.
Proof. destruct c as [[] [] [] [] [] [] [] []]; vm_compute; congruence. Qed.

Lemma slugPart_clean (x : value) :
  Client.slugPart x = clean (Client.ToString x).
Proof.
  unfold Client.slugPart.
  change (strip Client.is_hyphen (squash_runs Client.not_alnum "-" ?t))
    with (clean t).
  apply clean_strip, client_space_na.
Qed.

Lemma Slug_Part_text (t : string) :
  (let s := strip Generator.is_space t in
   if is_empty s then None
   else
     let s := strip hy (squash_runs na "-" s) in
     if is_empty s then None else Some s)
  = if is_empty (clean t) then None else Some (clean t).
Proof.
  cbv zeta.
  change (strip hy (squash_runs na "-" ?u)) with (clean u).
  rewrite (clean_strip Generator.is_space t generator_space_na).
  destruct (is_empty (strip Generator.is_space t)) eqn:E; [|reflexivity].
  rewrite <- (clean_strip Generator.is_space t generator_space_na).
  now rewrite (is_empty_eq _ E).
Qed.

Lemma Slug_Part_clean (x : value) :
  Generator.Slug_Part x
  = match x with
    | VUndefined | VNull => None
    | _ => if is_empty (clean (Generator.ToString x)) then None
           else Some (clean (Generator.ToString x))
    end.
Proof.
  destruct x as [| |b|n|s]; try reflexivity; unfold Generator.Slug_Part;
    apply Slug_Part_text.
Qed.

Lemma Slug_Part_tidy (x : value) (sp : string) :
  Generator.Slug_Part x = Some sp -> tidy sp = true.
Proof.
  rewrite Slug_Part_clean.
  destruct x as [| |b|n|s]; try discriminate;
    match goal with
    | |- context [is_empty (clean ?t)] =>
        destruct (is_empty (clean t)) eqn:E; [discriminate|];
        intros H; injection H as <-; now apply clean_tidy
    end.
Qed.

Lemma squash_tidy (s : string) : forall after_hyphen in_run : bool,
  tidy_from after_hyphen s = true -> after_hyphen = true \/ in_run = false ->
  squash_from in_run na "-" s = s.
Proof.
  induction s as [|c s IH]; intros ah ir H Hor; [reflexivity|].
  cbn [tidy_from] in H. cbn [squash_from].
  destruct (hy c) eqn:E; apply andb_true_iff in H as [H1 H2].
  - apply negb_true_iff in H1. subst ah.
    destruct Hor as [Hor | ->]; [discriminate|].
    rewrite (hyphen_is c E). change (na "-") with true. cbv iota.
    now rewrite (IH true true H2 (or_introl eq_refl)).
  - unfold na at 1. rewrite H1. cbn [negb].
    now rewrite (IH false false H2 (or_intror eq_refl)).
Qed.

Lemma alnum_head_kept (p : ascii -> bool) (s : string) :
  (forall c, p c = true -> is_alnum c = false) ->
  tidy s = true -> drop_while p s = s.
Proof.
  intros Hp. destruct s as [|c s]; [reflexivity|].
  unfold tidy. cbn [tidy_from drop_while].
  destruct (hy c); [discriminate|]. intros H.
  apply andb_true_iff in H as [H _].
  destruct (p c) eqn:E; [|reflexivity]. apply Hp in E. congruence.
Qed.

Lemma na_not_alnum (c : ascii) : na c = true -> is_alnum c = false.
Proof. unfold na. now destruct (is_alnum c). Qed.

(** Sanitizing a tidy text changes nothing. *)
Lemma clean_of_tidy (s : string) : tidy s = true -> clean s = s.
Proof.
  intros H. rewrite clean_normal_form. unfold strip, squash_runs.
  rewrite (alnum_head_kept na s na_not_alnum H).
  rewrite (tidy_no_trailing na s na_not_alnum true H).
  exact (squash_tidy s true false H (or_introl eq_refl)).
Qed.

Lemma filter_map_filter (A B : Type) (h : A -> bool) (g : A -> B)
    (p : B -> bool) (l : list A) :
  filter p (map g (filter h l))
  = flat_map (fun x => if h x && p (g x) then [g x] else []) l.
Proof.
  induction l as [|x l IH]; [reflexivity|].
  cbn [filter flat_map]. destruct (h x); cbn [andb map filter].
  - destruct (p (g x)); cbn [app]; now rewrite IH.
  - exact IH.
Qed.

(** On a plain field the two runtimes keep the same part, or both none. *)
Lemma parts_agree (x : value) :
  plain x = true ->
  (if Client.ToBoolean x && negb (is_empty (Client.slugPart x))
   then [Client.slugPart x] else [])
  = match Generator.Slug_Part x with
    | Some sp => if is_empty sp then [] else [sp]
    | None => []
    end.
Proof.
  intros Hx. rewrite slugPart_clean, Slug_Part_clean.
  destruct x as [| |b|n|s]; try discriminate; try reflexivity.
  - cbn [plain] in Hx. apply andb_true_iff in Hx as [Hpos _].
    apply Z.ltb_lt in Hpos.
    cbn [Client.ToBoolean Client.ToString Generator.ToString].
    rewrite (proj2 (Z.eqb_neq n 0)) by lia. cbn [negb andb].
    now destruct (is_empty (clean (string_of_Z n))) eqn:E; cbn [negb]; rewrite ?E.
  - cbn [Client.ToBoolean Client.ToString Generator.ToString].
    destruct s as [|c s]; [reflexivity|]. cbn [is_empty negb andb].
    now destruct (is_empty (clean (String c s))) eqn:E; cbn [negb]; rewrite ?E.
Qed.

End SlugParts.

Section SlugTheorems.
Import Text Notions Shapes.

#[local] Abbreviation na := Generator.not_alnum.
#[local] Abbreviation hy := Generator.is_hyphen.

Lemma hyphen_not_alnum (c : ascii) : hy c = true -> is_alnum c = false.
Proof. destruct c as [[] [] [] [] [] [] [] []]; vm_compute; congruence. Qed.

Lemma tidy_shape (s : string) :
  tidy s = true -> starts_with "Used" s = true -> slug_shaped s.
Proof.
  intros Ht Hu. unfold slug_shaped. split; [exact Hu|]. split.
  - exact (tidy_chars s true Ht).
  - split; [exact (tidy_no_double_hyphen s true Ht)|]. split.
    + now apply tidy_no_leading_hyphen.
    + exact (tidy_no_trailing hy s hyphen_not_alnum true Ht).
Qed.

Lemma join_Used (rest : list string) :
  starts_with "Used" (join "-" ("Used" :: rest)) = true.
Proof. destruct rest; reflexivity. Qed.

Lemma generator_parts_tidy (l : list value) :
  Forall (fun s => tidy s = true)
    (flat_map (fun p => match Generator.Slug_Part p with
                        | Some sp => if is_empty sp then [] else [sp]
                        | None => []
                        end) l).
Proof.
  apply Forall_forall. intros sp Hin.
  apply in_flat_map in Hin as (x & _ & Hin).
  destruct (Generator.Slug_Part x) as [sp'|] eqn:E; [|destruct Hin].
  destruct (is_empty sp'); [destruct Hin|].
  destruct Hin as [<- | []]. exact (Slug_Part_tidy x sp' E).
Qed.

Lemma client_parts_tidy (l : list value) :
  Forall (fun s => tidy s = true)
    (filter (fun s => negb (is_empty s))
       (map Client.slugPart (filter Client.ToBoolean l))).
Proof.
  apply Forall_forall. intros sp Hin.
  apply filter_In in Hin as [Hin Hne].
  apply in_map_iff in Hin as (x & <- & _).
  rewrite slugPart_clean in *. apply clean_tidy.
  now apply negb_true_iff in Hne.
Qed.

Lemma generator_slug_tidy (cfg : Generator.Config) (v : Vehicle) :
  tidy (Generator.Slug_Tail cfg v) = true
  /\ starts_with "Used" (Generator.Slug_Tail cfg v) = true.
Proof.
  unfold Generator.Slug_Tail.
  match goal with
  | |- context [join "-" (flat_map ?f (VStr "Used" :: ?rest))] =>
      change (flat_map f (VStr "Used" :: rest))
        with ("Used" :: flat_map f rest);
      pose proof (generator_parts_tidy rest) as Hrest
  end.
  split; [|apply join_Used].
  apply tidy_join; [discriminate|]. now constructor.
Qed.

Lemma client_slug_tidy (v : Vehicle) :
  tidy (Client.slug v) = true /\ starts_with "Used" (Client.slug v) = true.
Proof.
  unfold Client.slug.
  match goal with
  | |- context [join "-" (filter ?p (map ?g (filter ?h (VStr "Used" :: ?rest))))] =>
      change (filter p (map g (filter h (VStr "Used" :: rest))))
        with ("Used" :: filter p (map g (filter h rest)));
      pose proof (client_parts_tidy rest) as Hrest
  end.
  split; [|apply join_Used].
  apply tidy_join; [discriminate|]. now constructor.
Qed.

(** X5.  Every slug, of the generator for any locality and of the loader,
    begins with [Used], is made of letters, digits and hyphens only, has no
    hyphen at either end and no two hyphens in a row; in particular no slug
    is empty. *)
Theorem X5_slugs_are_tidy (cfg : Generator.Config) (v : Vehicle) :
  slug_shaped (Generator.Slug_Tail cfg v) /\ slug_shaped (Client.slug v).
Proof.
  destruct (generator_slug_tidy cfg v) as [Hg Hgu].
  destruct (client_slug_tidy v) as [Hc Hcu].
  split; now apply tidy_shape.
Qed.

(** X6.  The sanitization of a slug part is idempotent: a part that
    [Slug-Part] returns is returned unchanged when it is sanitized again,
    and so is a part built by the [.map] callback of [buildVDPUrl]. *)
Theorem X6_slug_part_sanitization_is_idempotent (x : value) :
  (forall sp, Generator.Slug_Part x = Some sp ->
     Generator.Slug_Part (VStr sp) = Some sp)
  /\ Client.slugPart (VStr (Client.slugPart x)) = Client.slugPart x.
Proof.
  split.
  - intros sp H. pose proof (Slug_Part_tidy x sp H) as Ht.
    rewrite Slug_Part_clean. cbn [Generator.ToString].
    rewrite (clean_of_tidy sp Ht). now rewrite (tidy_not_empty sp Ht).
  - rewrite (slugPart_clean (VStr _)). cbn [Client.ToString].
    rewrite slugPart_clean.
    destruct (is_empty (clean (Client.ToString x))) eqn:E.
    + now rewrite (is_empty_eq _ E).
    + apply clean_of_tidy. now apply clean_tidy.
Qed.

(** The two lists of slug parts, on plain fields. *)
Lemma slug_parts_agree (v : Vehicle) :
  same_slug_inputs v = true ->
  filter (fun s => negb (is_empty s))
    (map Client.slugPart
       (filter Client.ToBoolean
          [VStr "Used"; V.year v; V.make v; V.model v; V.trim v;
           VStr "for-sale-in-Greenville-NC-27858"]))
  = flat_map (fun p => match Generator.Slug_Part p with
                       | Some sp => if is_empty sp then [] else [sp]
                       | None => []
                       end)
      [VStr "Used"; V.year v; V.make v; V.model v; V.trim v;
       VStr "for-sale-in-Greenville-NC-27858"].
Proof.
  unfold same_slug_inputs. intros H.
  apply andb_true_iff in H as [H Ht]. apply andb_true_iff in H as [H Hm].
  apply andb_true_iff in H as [Hy Hk].
  rewrite filter_map_filter. cbn [flat_map].
  rewrite (parts_agree (VStr "Used") eq_refl), (parts_agree _ Hy),
    (parts_agree _ Hk), (parts_agree _ Hm), (parts_agree _ Ht),
    (parts_agree (VStr "for-sale-in-Greenville-NC-27858") eq_refl).
  reflexivity.
Qed.

(** X7.  With the default locality the two runtimes build the same slug for
    every record whose [year], [make], [model] and [trim] are each a text, a
    positive integer up to 2^53 - 1 (which both runtimes hold exactly and
    print with the same digits), or missing. *)
Theorem X7_loader_slug_is_generator_slug (v : Vehicle) :
  same_slug_inputs v = true ->
  Client.slug v = Generator.Slug_Tail Generator.defaults v.
Proof.
  intros H. unfold Client.slug, Generator.Slug_Tail.
  change ("for-sale-in-" ++ Generator.City Generator.defaults ++ "-"
            ++ Generator.State Generator.defaults ++ "-"
            ++ Generator.Zip Generator.defaults)
    with "for-sale-in-Greenville-NC-27858".
  cbv zeta. f_equal. exact (slug_parts_agree v H).
Qed.

End SlugTheorems.

Lemma X7_loader_slug_is_generator_slug_witness :
  Client.slug f150 = Generator.Slug_Tail Generator.defaults f150.
Proof. apply (X7_loader_slug_is_generator_slug f150). reflexivity. Defined.

(** ** Identifiers and links across the two runtimes *)

Section CrossRuntime.
Import Text Notions Shapes.

Lemma plain_same_text (x : value) :
  Client.ToBoolean x = true -> plain x = true ->
  Client.ToString x = Generator.ToString x.
Proof. destruct x as [| |b|n|s]; try discriminate; reflexivity. Qed.

Lemma kept_field (x : value) :
  Client.ToBoolean x && plain x = true ->
  Client.ToBoolean x = true /\ Client.ToString x = Generator.ToString x.
Proof.
  intros H. apply andb_true_iff in H as [H1 H2].
  split; [exact H1 | now apply plain_same_text].
Qed.

Lemma seeds_agree_on_fields (v : Vehicle) :
  Client.ToBoolean (V.vin v) = false ->
  forallb (fun x => Client.ToBoolean x && plain x)
    [V.year v; V.make v; V.model v; V.trim v;
     V.price v; V.mileage v; V.dateAdded v] = true ->
  Client.ToString (Client.seed v) = Generator.ToString (Generator.seed v).
Proof.
  intros Hvin H. cbn [forallb] in H.
  repeat (apply andb_true_iff in H as [?H H]).
  repeat match goal with
         | K : Client.ToBoolean ?x && plain ?x = true |- _ =>
             apply kept_field in K as [? ?]
         end.
  unfold Client.seed, Generator.seed, Client.or, Generator.join_text.
  change Generator.truthy with Client.ToBoolean.
  rewrite Hvin. cbn [negb filter].
  repeat match goal with
         | K : Client.ToBoolean ?x = true |- _ => rewrite K; clear K
         end.
  cbn [map].
  repeat match goal with
         | K : Client.ToString ?x = Generator.ToString ?x |- _ =>
             rewrite K; clear K
         end.
  match goal with
  | |- context [Client.ToBoolean (VStr ?j)] =>
      destruct (Client.ToBoolean (VStr j)); reflexivity
  end.
Qed.

Lemma seeds_agree (v : Vehicle) :
  same_identifier_inputs v = true ->
  Client.ToBoolean (first_truthy v) = false ->
  Client.ToString (Client.seed v) = Generator.ToString (Generator.seed v).
Proof.
  unfold same_identifier_inputs. intros H E. rewrite E in H.
  destruct (Client.ToBoolean (V.vin v)) eqn:Ev.
  - apply seeds_agree_on_vin; [exact Ev | now apply plain_same_text].
  - now apply seeds_agree_on_fields.
Qed.

(** X8.  On a record whose kept identity field is a text or a positive
    integer up to 2^53 - 1, the two identifier functions return the same
    text; when [year], [make], [model] and [trim] are plain too, the link
    built by the loader is ["/"] followed by the page path of the generator
    run with its default parameters.  On a record without identity field
    whose [vin] is such a text or number, or which has no [vin] and whose
    seven fallback fields all are, the two functions seed their digest with
    the same text; each returns ["v"] followed by the first ten digits of
    its digest of that text. *)
Theorem X8_loader_link_reaches_the_generated_page (v : Vehicle) :
  same_identifier_inputs v = true ->
  (Client.ToBoolean (first_truthy v) = true ->
     Client.vehicleId v = Generator.Slug_Id v
     /\ (same_slug_inputs v = true ->
           Client.buildVDPUrl v
           = "/" ++ Generator.pagePath Generator.defaults v))
  /\ (Client.ToBoolean (first_truthy v) = false ->
        Client.ToString (Client.seed v) = Generator.ToString (Generator.seed v)
        /\ Client.vehicleId v
           = "v" ++ substring 0 10
                      (Utils.sha1Hex (Client.ToString (Client.seed v)))
        /\ Generator.Slug_Id v
           = "v" ++ substring 0 10
                      (Generator.hash_hex
                         (Generator.ToString (Generator.seed v)))).
Proof.
  intros Hid. split.
  - intros Ht.
    assert (E : Client.vehicleId v = Generator.Slug_Id v).
    { apply identifiers_agree_on_identity; [exact Ht|].
      unfold same_identifier_inputs in Hid. rewrite Ht in Hid.
      now apply plain_same_text. }
    split; [exact E|]. intros Hslug.
    unfold Client.buildVDPUrl, Generator.pagePath, Generator.relDir.
    rewrite E. unfold Client.slug, Generator.Slug_Tail.
    change ("for-sale-in-" ++ Generator.City Generator.defaults ++ "-"
              ++ Generator.State Generator.defaults ++ "-"
              ++ Generator.Zip Generator.defaults)
      with "for-sale-in-Greenville-NC-27858".
    cbv zeta. rewrite (slug_parts_agree v Hslug).
    rewrite !app_str_assoc. reflexivity.
  - intros Hf. split; [exact (seeds_agree v Hid Hf)|]. split.
    + exact (client_fallback v Hf).
    + exact (generator_fallback v Hf).
Qed.

(** X9.  An identifier stored as [vehicleId] is used as it is: on a record
    whose [vehicleId] is a non-empty text of letters and digits both runtimes
    return that text, whatever the other fields are.  So writing the
    identifier computed by either runtime into [vehicleId] makes both
    runtimes return it. *)
Theorem X9_stored_identifier_is_returned (v : Vehicle) (i : string) :
  i <> EmptyString -> forallb_str is_alnum i = true ->
  Client.vehicleId (V.with_vehicleId (VStr i) v) = i
  /\ Generator.Slug_Id (V.with_vehicleId (VStr i) v) = i.
Proof.
  intros Hne Hal.
  assert (Hf : first_truthy (V.with_vehicleId (VStr i) v) = VStr i).
  { unfold first_truthy. cbn [V.with_vehicleId V.vehicleId Client.ToBoolean].
    destruct i; [congruence | reflexivity]. }
  assert (Ht : Client.ToBoolean (first_truthy (V.with_vehicleId (VStr i) v))
               = true).
  { rewrite Hf. destruct i; [congruence | reflexivity]. }
  rewrite client_selected, generator_selected by exact Ht.
  rewrite Hf. cbn [Client.ToString Generator.ToString].
  now rewrite filter_str_all.
Qed.

End CrossRuntime.

Lemma X8_loader_link_reaches_the_generated_page_witness :
  Client.vehicleId f150 = Generator.Slug_Id f150
  /\ Client.buildVDPUrl f150
     = "/" ++ Generator.pagePath Generator.defaults f150.
Proof.
  destruct (X8_loader_link_reaches_the_generated_page f150 eq_refl)
    as [H _].
  destruct (H eq_refl) as [E L]. exact (conj E (L eq_refl)).
Defined.

Lemma X9_stored_identifier_is_returned_witness :
  Client.vehicleId (V.with_vehicleId (VStr "v3feda0153e") V.empty)
  = "v3feda0153e"
  /\ Generator.Slug_Id (V.with_vehicleId (VStr "v3feda0153e") V.empty)
     = "v3feda0153e".
Proof.
  apply (X9_stored_identifier_is_returned V.empty "v3feda0153e");
    [discriminate | reflexivity].
Defined.

(** ** Page paths *)

Section PagePaths.
Import Text Notions Shapes.

#[local] Abbreviation no_slash := (fun c : ascii => negb (Generator.is_slash c)).

Lemma alnum_no_slash (c : ascii) : is_alnum c = true -> no_slash c = true.
Proof. destruct c as [[] [] [] [] [] [] [] []]; vm_compute; congruence. Qed.

Lemma slug_char_no_slash (c : ascii) : slug_char c = true -> no_slash c = true.
Proof. destruct c as [[] [] [] [] [] [] [] []]; vm_compute; congruence. Qed.

Lemma no_slash_neq (c : ascii) : no_slash c = true -> Ascii.eqb "/" c = false.
Proof. destruct c as [[] [] [] [] [] [] [] []]; vm_compute; congruence. Qed.

Lemma double_slash_skip (a y : string) :
  forallb_str no_slash a = true -> contains "//" (a ++ y) = contains "//" y.
Proof.
  induction a as [|c a IH]; [reflexivity|].
  intros H. cbn [forallb_str] in H. apply andb_true_iff in H as [Hc Ha].
  cbn [append contains starts_with].
  now rewrite (no_slash_neq c Hc), IH.
Qed.

Lemma double_slash_after (b : string) :
  forallb_str no_slash b = true -> is_empty b = false ->
  contains "//" (String "/" (b ++ "/")) = false.
Proof.
  intros Hb Hne. destruct b as [|d b]; [discriminate|].
  pose proof Hb as Hb'. cbn [forallb_str] in Hb'.
  apply andb_true_iff in Hb' as [Hd _].
  cbn [contains]. rewrite (double_slash_skip (String d b) "/" Hb).
  cbn [append starts_with contains].
  now rewrite (no_slash_neq d Hd), !andb_false_r.
Qed.

Lemma double_slash_path (a b : string) :
  forallb_str no_slash a = true -> forallb_str no_slash b = true ->
  is_empty b = false ->
  contains "//" (String "/" (a ++ String "/" (b ++ "/"))) = is_empty a.
Proof.
  intros Ha Hb Hne. destruct a as [|c a].
  - reflexivity.
  - pose proof Ha as Ha'. cbn [forallb_str] in Ha'.
    apply andb_true_iff in Ha' as [Hc _].
    cbn [contains]. rewrite (double_slash_skip (String c a) _ Ha).
    rewrite (double_slash_after b Hb Hne).
    cbn [append starts_with]. now rewrite (no_slash_neq c Hc), !andb_false_r.
Qed.

Lemma tidy_no_slash (s : string) :
  tidy s = true -> forallb_str no_slash s = true /\ is_empty s = false.
Proof.
  intros H. split.
  - exact (forallb_str_weaken slug_char _ s slug_char_no_slash
             (tidy_chars s true H)).
  - now apply tidy_not_empty.
Qed.

(** X10.  A page path or a loader link has two slashes in a row exactly
    when the identifier is empty: the slug is never empty and neither part
    contains a slash. *)
Theorem X10_double_slash_only_with_empty_identifier
    (cfg : Generator.Config) (v : Vehicle) :
  contains "//" (Generator.pagePath cfg v) = is_empty (Generator.Slug_Id v)
  /\ contains "//" (Client.buildVDPUrl v) = is_empty (Client.vehicleId v).
Proof.
  destruct (generator_slug_tidy cfg v) as [Hg _].
  destruct (client_slug_tidy v) as [Hc _].
  apply tidy_no_slash in Hg as [Hg1 Hg2].
  apply tidy_no_slash in Hc as [Hc1 Hc2].
  split.
  - assert (E : Generator.pagePath cfg v
                = "vdp" ++ String "/" (Generator.Slug_Id v
                    ++ String "/" (Generator.Slug_Tail cfg v ++ "/"))).
    { unfold Generator.pagePath, Generator.relDir.
      rewrite !app_str_assoc. reflexivity. }
    rewrite E, (double_slash_skip "vdp" _ eq_refl).
    apply double_slash_path; [|assumption..].
    exact (forallb_str_weaken is_alnum _ _ alnum_no_slash
             (generator_Slug_Id_alnum v)).
  - change (Client.buildVDPUrl v)
      with (String "/" ("vdp" ++ String "/" (Client.vehicleId v
              ++ String "/" (Client.slug v ++ "/")))).
    cbn [contains]. rewrite (double_slash_skip "vdp" _ eq_refl).
    rewrite double_slash_path; [| | assumption | assumption].
    + reflexivity.
    + exact (forallb_str_weaken is_alnum _ _ alnum_no_slash
               (client_vehicleId_alnum v)).
Qed.

End PagePaths.

Section PageFiles.
Import Text Notions Shapes.

#[local] Abbreviation no_slash := (fun c : ascii => negb (Generator.is_slash c)).

Lemma slash_is (c : ascii) : no_slash c = false -> c = "/"%char.
Proof. destruct c as [[] [] [] [] [] [] [] []]; vm_compute; congruence. Qed.

(** Two texts split at their first slash. *)
Lemma split_at_first_slash (a : string) : forall a' b b' : string,
  forallb_str no_slash a = true -> forallb_str no_slash a' = true ->
  a ++ String "/" b = a' ++ String "/" b' -> a = a' /\ b = b'.
Proof.
  induction a as [|c a IH]; intros [|c' a'] b b' Ha Ha' E;
    cbn [append forallb_str] in *.
  - injection E as E. now split.
  - injection E as Ec E. apply andb_true_iff in Ha' as [Hc' _].
    rewrite <- Ec in Hc'. discriminate.
  - injection E as Ec E. apply andb_true_iff in Ha as [Hc _].
    rewrite Ec in Hc. discriminate.
  - injection E as Ec E. apply andb_true_iff in Ha as [_ Ha].
    apply andb_true_iff in Ha' as [_ Ha'].
    destruct (IH a' b b' Ha Ha' E) as [-> ->]. now subst c'.
Qed.

Lemma append_cancel_l (x a b : string) : x ++ a = x ++ b -> a = b.
Proof.
  induction x as [|c x IH]; cbn [append]; [trivial|].
  intros E. injection E as E. auto.
Qed.

(** X11.  Two records get the same [$relDir] text exactly when they have
    the same identifier and the same slug: the identifier and the slug can
    be read back from the directory of a page. *)
Theorem X11_same_page_directory_iff_same_identifier_and_slug
    (cfg : Generator.Config) (v1 v2 : Vehicle) :
  Generator.relDir cfg v1 = Generator.relDir cfg v2
  <-> Generator.Slug_Id v1 = Generator.Slug_Id v2
      /\ Generator.Slug_Tail cfg v1 = Generator.Slug_Tail cfg v2.
Proof.
  unfold Generator.relDir. split.
  - intros E. apply append_cancel_l in E.
    apply split_at_first_slash in E; [exact E| |];
      exact (forallb_str_weaken is_alnum _ _ alnum_no_slash
               (generator_Slug_Id_alnum _)).
  - intros [-> ->]. reflexivity.
Qed.

Lemma drop_while_end_snoc (p : ascii -> bool) (c : ascii) (s : string) :
  p c = true ->
  drop_while_end p (s ++ String c EmptyString) = drop_while_end p s.
Proof.
  intros Hc. induction s as [|x s IH].
  - cbn [append drop_while_end is_empty andb]. now rewrite Hc.
  - cbn [append drop_while_end]. now rewrite IH.
Qed.

Lemma drop_while_end_stable (p : ascii -> bool) (s : string) :
  drop_while_end p (drop_while_end p s) = drop_while_end p s.
Proof. apply (drop_while_end_narrower p p). auto. Qed.

(** X12.  The page URL is the site URL without its trailing slashes, one
    slash, and the page path; a slash more or less at the end of [-SiteUrl]
    gives the same page URLs. *)
Theorem X12_page_url_ignores_trailing_slashes_of_site_url
    (cfg : Generator.Config) (v : Vehicle) :
  Generator.pageUrl cfg v
  = Generator.TrimEnd Generator.is_slash (Generator.SiteUrl cfg) ++ "/"
      ++ Generator.pagePath cfg v
  /\ Generator.pageUrl (with_SiteUrl (Generator.SiteUrl cfg ++ "/") cfg) v
     = Generator.pageUrl cfg v
  /\ Generator.pageUrl
       (with_SiteUrl
          (Generator.TrimEnd Generator.is_slash (Generator.SiteUrl cfg)) cfg) v
     = Generator.pageUrl cfg v.
Proof.
  split; [|split].
  - reflexivity.
  - unfold Generator.pageUrl, Generator.relDir, Generator.Slug_Tail,
      Generator.TrimEnd, with_SiteUrl.
    cbn [Generator.SiteUrl Generator.City Generator.State Generator.Zip].
    now rewrite drop_while_end_snoc.
  - unfold Generator.pageUrl, Generator.relDir, Generator.Slug_Tail,
      Generator.TrimEnd, with_SiteUrl.
    cbn [Generator.SiteUrl Generator.City Generator.State Generator.Zip].
    now rewrite drop_while_end_stable.
Qed.

End PageFiles.

(** ** The two views of the inventory grid *)

Section GridViews.
Import Text Notions Shapes.
Context {host : JSHost}.

Lemma insert_perm (A : Type) (cmp : A -> A -> number) (x : A) (l : list A) :
  Permutation (Client.insert cmp x l) (x :: l).
Proof.
  induction l as [|y l IH]; cbn [Client.insert]; [apply Permutation_refl|].
  destruct (Client.after (cmp x y)); [|apply Permutation_refl].
  apply Permutation_trans with (y :: x :: l).
  - now apply perm_skip.
  - apply perm_swap.
Qed.

Lemma sort_perm (A : Type) (cmp : A -> A -> number) (l : list A) :
  Permutation (Client.sort cmp l) l.
Proof.
  induction l as [|x l IH]; cbn [Client.sort]; [apply Permutation_refl|].
  apply Permutation_trans with (x :: Client.sort cmp l).
  - apply insert_perm.
  - now apply perm_skip.
Qed.

Lemma byDateDesc_time (a b : Vehicle) :
  Client.byDateDesc a b = Client.sub (time_value b) (time_value a).
Proof. reflexivity. Qed.

Lemma not_older_trans (a b c : Vehicle) :
  not_older a b -> not_older b c -> not_older a c.
Proof.
  intros (ta & tb & Ha & Hb & Hab) (tb' & tc & Hb' & Hc & Hbc).
  rewrite Hb in Hb'. injection Hb' as <-.
  exists ta, tc. repeat split; try assumption. lia.
Qed.

Lemma insert_sorted (x : Vehicle) (l : list Vehicle) :
  (forall z, In z (x :: l) -> exists t, time_value z = Fin t) ->
  StronglySorted not_older l ->
  StronglySorted not_older (Client.insert Client.byDateDesc x l).
Proof.
  intros Hok Hs. induction Hs as [|y l Hs IH Hy].
  - cbn [Client.insert]. constructor; constructor.
  - cbn [Client.insert].
    destruct (Hok x (or_introl eq_refl)) as [tx Hx].
    destruct (Hok y (or_intror (or_introl eq_refl))) as [ty Hty].
    rewrite byDateDesc_time, Hx, Hty. cbn [Client.sub Client.after].
    destruct (0 <? ty - tx) eqn:E.
    + apply Z.ltb_lt in E. constructor.
      * apply IH. intros z [<- | Hz]; apply Hok; [now left | right; now right].
      * apply Forall_forall. intros z Hz.
        apply insert_In in Hz as [-> | Hz].
        -- exists ty, tx. repeat split; try assumption. lia.
        -- rewrite Forall_forall in Hy. now apply Hy.
    + apply Z.ltb_ge in E.
      assert (Hxy : not_older x y)
        by (exists tx, ty; repeat split; try assumption; lia).
      constructor; [now constructor|].
      constructor; [exact Hxy|].
      apply Forall_forall. intros z Hz. rewrite Forall_forall in Hy.
      exact (not_older_trans x y z Hxy (Hy z Hz)).
Qed.

Lemma sort_sorted (l : list Vehicle) :
  (forall z, In z l -> exists t, time_value z = Fin t) ->
  StronglySorted not_older (Client.sort Client.byDateDesc l).
Proof.
  induction l as [|x l IH]; intros Hok; cbn [Client.sort]; [constructor|].
  apply insert_sorted.
  - intros z [<- | Hz]; [apply Hok; now left|].
    apply Hok. right. now apply (sort_In _ Client.byDateDesc).
  - apply IH. intros z Hz. apply Hok. now right.
Qed.

Lemma firstn_sorted (A : Type) (R : A -> A -> Prop) (l : list A) :
  StronglySorted R l -> forall n : nat, StronglySorted R (firstn n l).
Proof.
  induction 1 as [|x l Hs IH Hx]; intros [|n]; cbn [firstn]; try constructor.
  - apply IH.
  - apply Forall_forall. intros z Hz. rewrite Forall_forall in Hx.
    apply Hx. rewrite <- (firstn_skipn n l). apply in_or_app. now left.
Qed.

(** X13.  Without a limit, [getMostRecent] returns the records that are
    available or have no status, each exactly once (a permutation of them).
    With a limit [n >= 0] it returns the first [n] of that list, or all of
    it when there are fewer. *)
Theorem X13_most_recent_lists_each_available_record_once
    (vehicles : list Vehicle) :
  Permutation (Client.getMostRecent NaN vehicles)
    (filter Client.statusMatch vehicles)
  /\ (forall n, 0 <= n ->
        Client.getMostRecent (Fin n) vehicles
        = firstn (Z.to_nat n) (Client.getMostRecent NaN vehicles)
        /\ List.length (Client.getMostRecent (Fin n) vehicles)
           = Nat.min (Z.to_nat n)
               (List.length (filter Client.statusMatch vehicles))).
Proof.
  unfold Client.getMostRecent.
  pose proof (sort_perm _ Client.byDateDesc
                (filter Client.statusMatch vehicles)) as Hp.
  split; [exact Hp|]. intros n Hn.
  assert (E : Client.slice0_list n
                (Client.sort Client.byDateDesc
                   (filter Client.statusMatch vehicles))
              = firstn (Z.to_nat n)
                  (Client.sort Client.byDateDesc
                     (filter Client.statusMatch vehicles))).
  { unfold Client.slice0_list.
    rewrite (proj2 (Z.ltb_ge n 0)) by lia.
    destruct (Z.le_ge_cases n
                (Z.of_nat (List.length
                   (Client.sort Client.byDateDesc
                      (filter Client.statusMatch vehicles))))) as [H | H].
    - now rewrite Z.min_l by lia.
    - rewrite Z.min_r, Nat2Z.id by lia.
      rewrite !firstn_all2; [reflexivity | lia | lia]. }
  split; [exact E|].
  rewrite E, length_firstn. now rewrite (Permutation_length Hp).
Qed.

(** X14.  When every listed record has a valid date (or none), the list of
    [getMostRecent] is in descending date order: each record is not older
    than every record after it. *)
Theorem X14_most_recent_is_newest_first
    (limit : number) (vehicles : list Vehicle) :
  (forall v, In v vehicles -> Client.statusMatch v = true ->
     exists t, time_value v = Fin t) ->
  StronglySorted not_older (Client.getMostRecent limit vehicles).
Proof.
  intros Hok. unfold Client.getMostRecent.
  assert (Hs : StronglySorted not_older
                 (Client.sort Client.byDateDesc
                    (filter Client.statusMatch vehicles))).
  { apply sort_sorted. intros z Hz. apply filter_In in Hz as [Hz Hm].
    now apply Hok. }
  destruct limit as [|n]; [exact Hs|].
  unfold Client.slice0_list. now apply firstn_sorted.
Qed.

End GridViews.

Lemma X14_most_recent_is_newest_first_witness :
  StronglySorted Shapes.not_older
    (Client.getMostRecent (Fin 2)
       [dated "A" "2024-01-15" VUndefined; dated "B" "2024-03-01" (VStr "sold");
        dated "C" "2024-02-10" (VStr "available"); dated "D" "" VUndefined]).
Proof.
  apply (X14_most_recent_is_newest_first (Fin 2)).
  intros v Hin _. cbn [In] in Hin.
  destruct Hin as [<- | [<- | [<- | [<- | []]]]]; eexists; vm_compute;
    reflexivity.
Defined.

Section GridFilters.
Import Text Notions Shapes.
Context {host : JSHost}.

Lemma matches_no_criteria (v : Vehicle) :
  Client.matches "" "all" "all" v = Client.statusMatch v.
Proof. reflexivity. Qed.

Lemma filter_filter (A : Type) (p q : A -> bool) (l : list A) :
  (forall x, p x = true -> q x = true) ->
  filter p (filter q l) = filter p l.
Proof.
  intros Hpq. induction l as [|x l IH]; [reflexivity|].
  cbn [filter]. destruct (q x) eqn:Eq; cbn [filter].
  - now rewrite IH.
  - destruct (p x) eqn:Ep; [|exact IH]. apply Hpq in Ep. congruence.
Qed.

(** X15.  Without criteria (empty query, type and price range [all]) the
    filter view lists the available records in inventory order: the same
    records as the unlimited default view, which orders them by date.  Any
    criteria select from that list, in the same order. *)
Theorem X15_filter_view_refines_the_unfiltered_view
    (vehicles : list Vehicle) (q t r : string) :
  Client.filterVehicles vehicles "" "all" "all"
  = filter Client.statusMatch vehicles
  /\ Permutation (Client.filterVehicles vehicles "" "all" "all")
       (Client.getMostRecent NaN vehicles)
  /\ Client.filterVehicles vehicles q t r
     = filter (Client.matches q t r)
         (Client.filterVehicles vehicles "" "all" "all").
Proof.
  assert (E : Client.filterVehicles vehicles "" "all" "all"
              = filter Client.statusMatch vehicles).
  { unfold Client.filterVehicles. apply filter_ext, matches_no_criteria. }
  split; [exact E|]. split.
  - rewrite E. apply Permutation_sym. unfold Client.getMostRecent.
    apply sort_perm.
  - rewrite E. unfold Client.filterVehicles. symmetry.
    apply filter_filter. intros v H. unfold Client.matches in H.
    now apply andb_true_iff in H as [_ H].
Qed.

Lemma map_str_empty (f : ascii -> ascii) (s : string) :
  is_empty (map_str f s) = is_empty s.
Proof. destruct s; reflexivity. Qed.

(** X16.  The search ignores the case of the query: two queries with the
    same lowercase form give the same filter view. *)
Theorem X16_search_ignores_the_case_of_the_query
    (vehicles : list Vehicle) (q1 q2 t r : string) :
  Client.toLowerCase q1 = Client.toLowerCase q2 ->
  Client.filterVehicles vehicles q1 t r = Client.filterVehicles vehicles q2 t r.
Proof.
  intros E. unfold Client.filterVehicles. apply filter_ext. intros v.
  unfold Client.matches, Client.searchMatch. rewrite E.
  replace (is_empty q1) with (is_empty q2); [reflexivity|].
  rewrite <- (map_str_empty Client.lower q1), <- (map_str_empty Client.lower q2).
  fold Client.toLowerCase. now rewrite E.
Qed.

(** X17.  The price ranges partition the records: for every record exactly
    one of [under10], [10to20], [20to30], [over30] passes the price
    condition of the filter, the one [getPriceRange] returns; for a numeric
    price [n] it is the range that contains [n], with the lower bound
    included and the upper bound excluded. *)
Theorem X17_price_ranges_partition_the_records (v : Vehicle) :
  filter (fun r => Client.priceMatch r v) buckets
  = [Client.getPriceRange (V.price v)]
  /\ (forall n, Client.ToNumber (V.price v) = Fin n ->
        Client.getPriceRange (V.price v)
        = if n <? 10000 then "under10"
          else if n <? 20000 then "10to20"
          else if n <? 30000 then "20to30"
          else "over30").
Proof.
  split.
  - unfold Client.priceMatch, Client.getPriceRange, buckets.
    destruct (Client.lt (Client.ToNumber (V.price v)) (Fin 10000));
      [reflexivity|].
    destruct (Client.lt (Client.ToNumber (V.price v)) (Fin 20000));
      [reflexivity|].
    destruct (Client.lt (Client.ToNumber (V.price v)) (Fin 30000));
      reflexivity.
  - intros n Hn. unfold Client.getPriceRange. rewrite Hn. reflexivity.
Qed.

End GridFilters.

Lemma X16_search_ignores_the_case_of_the_query_witness :
  Client.filterVehicles [f150; sold; V.empty] "FORD f-150" "all" "all"
  = Client.filterVehicles [f150; sold; V.empty] "ford F-150" "all" "all".
Proof.
  apply (X16_search_ignores_the_case_of_the_query [f150; sold; V.empty]
           "FORD f-150" "ford F-150" "all" "all").
  reflexivity.
Defined.

(** ** The sitemap rewrite *)

Section SitemapRewrite.
Import Text Notions Shapes.

Lemma like_any (t : string) : Generator.like t "*" = true.
Proof.
  induction t as [|c t IH]; rewrite like_star; [reflexivity|].
  rewrite IH. apply orb_true_r.
Qed.

Lemma like_literal_prefix (lit : string) : forall t : string,
  forallb_str literal lit = true ->
  Generator.like t (lit ++ "*")
  = starts_with (map_str Generator.fold_case lit)
      (map_str Generator.fold_case t).
Proof.
  induction lit as [|p lit IH]; intros t Hlit.
  - cbn [append map_str starts_with]. apply like_any.
  - cbn [forallb_str] in Hlit. apply andb_true_iff in Hlit as [Hp Hlit].
    unfold literal in Hp. apply andb_true_iff in Hp as [Hs Hq].
    apply negb_true_iff in Hs, Hq.
    cbn [append Generator.like]. rewrite Hs, Hq.
    destruct t as [|c t]; [reflexivity|].
    cbn [map_str starts_with orb]. now rewrite (IH t Hlit).
Qed.

Lemma like_literal_inside (lit : string) (t : string) :
  forallb_str literal lit = true ->
  Generator.like t (String "*" (lit ++ "*"))
  = contains (map_str Generator.fold_case lit)
      (map_str Generator.fold_case t).
Proof.
  intros Hlit. induction t as [|c t IH]; rewrite like_star.
  - rewrite (like_literal_prefix lit EmptyString Hlit). reflexivity.
  - rewrite (like_literal_prefix lit (String c t) Hlit), IH. reflexivity.
Qed.

(** X18.  [Update-Sitemap] leaves a missing or unparsable sitemap as it is.
    In a parsed one it removes exactly the entries whose location contains
    the six characters backslash, slash, [vdp], backslash, slash (letters in
    either case), and keeps the others, among them every entry without
    location, in their order; then it appends one entry per URL, in order,
    dated today. *)
Theorem X18_update_sitemap_removes_backslashed_vdp_entries
    (today : string) (VdpUrls : list string) (urls : list Generator.UrlNode)
    (content : string) :
  Generator.Update_Sitemap today VdpUrls Generator.Absent = Generator.Absent
  /\ Generator.Update_Sitemap today VdpUrls (Generator.Unparsable content)
     = Generator.Unparsable content
  /\ Generator.Update_Sitemap today VdpUrls (Generator.Sitemap urls)
     = Generator.Sitemap
         (filter (fun u => match Generator.loc u with
                           | Some text =>
                               negb (contains "\/vdp\/"
                                       (map_str Generator.fold_case text))
                           | None => true
                           end) urls
          ++ map (Generator.fresh_node today) VdpUrls)%list.
Proof.
  split; [reflexivity|]. split; [reflexivity|].
  unfold Generator.Update_Sitemap. do 2 f_equal.
  apply filter_ext. intros u.
  destruct (Generator.loc u) as [text|]; [|reflexivity].
  f_equal. exact (like_literal_inside "\/vdp\/" text eq_refl).
Qed.

Lemma plain_locs_app (l1 l2 : list Generator.UrlNode) :
  plain_locs l1 -> plain_locs l2 -> plain_locs (l1 ++ l2)%list.
Proof.
  intros H1 H2 u text Hin Hloc.
  apply in_app_or in Hin as [Hin | Hin]; eauto.
Qed.

Lemma plain_locs_fresh (today : string) (VdpUrls : list string) :
  (forall u, In u VdpUrls -> existsb_str is_backslash u = false) ->
  plain_locs (map (Generator.fresh_node today) VdpUrls).
Proof.
  intros H u text Hin Hloc. apply in_map_iff in Hin as (x & <- & Hx).
  cbn in Hloc. injection Hloc as <-. now apply H.
Qed.

Lemma concat_repeat_shift (A : Type) (l : list A) (k : nat) :
  (List.concat (repeat l k) ++ l = l ++ List.concat (repeat l k))%list.
Proof.
  induction k as [|k IH]; cbn [repeat List.concat]; [now rewrite app_nil_r|].
  now rewrite <- app_assoc, IH.
Qed.

Lemma plain_locs_concat_repeat (l : list Generator.UrlNode) (k : nat) :
  plain_locs l -> plain_locs (List.concat (repeat l k)).
Proof.
  intros H. induction k as [|k IH]; cbn [repeat List.concat].
  - intros u text [].
  - now apply plain_locs_app.
Qed.

(** X19.  Runs accumulate in the sitemap: when neither the site URL nor the
    existing locations contain a backslash, rewriting the sitemap [k] times
    for the same records leaves the earlier entries and lists the page URLs
    [k] times over. *)
Theorem X19_sitemap_grows_with_every_run
    (cfg : Generator.Config) (today : string) (vehicles : list Vehicle)
    (urls : list Generator.UrlNode) (k : nat) :
  existsb_str is_backslash (Generator.SiteUrl cfg) = false ->
  plain_locs urls ->
  let VdpUrls := map (Generator.pageUrl cfg) vehicles in
  Nat.iter k (Generator.Update_Sitemap today VdpUrls) (Generator.Sitemap urls)
  = Generator.Sitemap
      (urls ++ List.concat
                 (repeat (map (Generator.fresh_node today) VdpUrls) k))%list.
Proof.
  intros Hsite Hplain VdpUrls.
  assert (Hurls : forall u, In u VdpUrls -> existsb_str is_backslash u = false).
  { intros u Hin. apply in_map_iff in Hin as (v & <- & _).
    now apply pageUrl_plain. }
  induction k as [|k IH]; cbn [Nat.iter nat_rect repeat List.concat].
  - now rewrite app_nil_r.
  - unfold Nat.iter in IH. rewrite IH.
    rewrite Update_Sitemap_appends.
    + now rewrite <- app_assoc, concat_repeat_shift.
    + apply plain_locs_app; [exact Hplain|].
      apply plain_locs_concat_repeat. now apply plain_locs_fresh.
Qed.

End SitemapRewrite.

Lemma X19_sitemap_grows_with_every_run_witness :
  Nat.iter 3
    (Generator.Update_Sitemap "2026-11-03"
       (map (Generator.pageUrl Generator.defaults) [f150]))
    (Generator.Sitemap Notions.home_only)
  = Generator.Sitemap
      (Notions.home_only
         ++ List.concat (repeat (map (Generator.fresh_node "2026-11-03")
                                   (map (Generator.pageUrl Generator.defaults)
                                      [f150])) 3))%list.
Proof.
  apply (X19_sitemap_grows_with_every_run Generator.defaults "2026-11-03"
           [f150] Notions.home_only 3).
  - vm_compute. reflexivity.
  - intros u text [<- | []] Hloc. injection Hloc as <-. vm_compute. reflexivity.
Defined.

(** ** The digest as text, in the two programs *)

Section DigestText.
Import Text Utils Notions.

(** X20.  The two ways of writing a digest word agree: the eight digits
    [toHex] gives for an integer are the two lower-case digits of each of
    the four bytes, highest byte first, of that integer taken modulo 2^32,
    which is how the generator writes the bytes of a hash. *)
Theorem X20_toHex_is_the_bytes_in_two_digits (i : Z) :
  toHex i
  = String.concat "" (map Generator.x2 (Generator.word_bytes (int32 i))).
Proof.
  rewrite word_bytes_hex by (unfold word32; apply int32_range).
  apply toHex_hexfix.
Qed.

End DigestText.

(** ** One run of the generator *)

Section RunOutcome.
Import Text Notions Shapes.
Context {host : PSHost}.
Variable cfg : Generator.Config.

Lemma NoDup_map_equiv (A B C : Type) (f : A -> B) (g : A -> C) (l : list A) :
  (forall a b, f a = f b <-> g a = g b) ->
  NoDup (map f l) <-> NoDup (map g l).
Proof.
  intros Hfg. induction l as [|a l IH]; cbn [map].
  - split; constructor.
  - rewrite !NoDup_cons_iff, IH.
    assert (Hin : In (f a) (map f l) <-> In (g a) (map g l)).
    { rewrite !in_map_iff. split; intros (b & E & Hb); exists b;
        (split; [|exact Hb]); [apply Hfg | apply Hfg]; exact E. }
    now rewrite Hin.
Qed.

Lemma outPath_eq_iff (v1 v2 : Vehicle) :
  Generator.relDir cfg v1 ++ "/index.html"
  = Generator.relDir cfg v2 ++ "/index.html"
  <-> (Generator.Slug_Id v1, Generator.Slug_Tail cfg v1)
      = (Generator.Slug_Id v2, Generator.Slug_Tail cfg v2).
Proof.
  unfold Generator.relDir. split.
  - intros E. rewrite !app_str_assoc in E. apply append_cancel_l in E.
    cbn [append] in E.
    apply split_at_first_slash in E;
      [| exact (forallb_str_weaken is_alnum _ _ alnum_no_slash
                  (generator_Slug_Id_alnum _)) ..].
    destruct E as [Eid E].
    apply (split_at_first_slash _ _ "index.html" "index.html") in E;
      [| apply tidy_no_slash, generator_slug_tidy ..].
    destruct E as [Et _]. now rewrite Eid, Et.
  - intros E. injection E as -> ->. reflexivity.
Qed.

(** X21.  A run over a non-empty list of records writes one page per
    record, in the order of the list, and reports the number of records.
    The paths written are pairwise different exactly when no two records
    share both the identifier and the slug; otherwise a later page is
    written to the path of an earlier one and the reported number is larger
    than the number of pages left.  The sitemap is rewritten with the page
    URLs in the order of the list, or left alone with [-NoUpdateSitemap]. *)
Theorem X21_run_reports_records_not_page_files
    (NoUpdateSitemap : bool) (today : string) (vehicles : list Vehicle)
    (sitemap : Generator.SitemapFile) :
  vehicles <> [] ->
  exists pages : list (string * Generator.Page),
    Generator.run cfg NoUpdateSitemap today (Some (Some vehicles)) sitemap
    = Generator.Generated pages
        (if NoUpdateSitemap then sitemap
         else Generator.Update_Sitemap today
                (map (Generator.pageUrl cfg) vehicles) sitemap)
        (Z.of_nat (List.length vehicles))
    /\ pages = map (fun v => (Generator.relDir cfg v ++ "/index.html",
                              Generator.render cfg v)) vehicles
    /\ (NoDup (map fst pages)
        <-> NoDup (map (fun v => (Generator.Slug_Id v,
                                  Generator.Slug_Tail cfg v)) vehicles)).
Proof.
  intros Hne. eexists. split; [|split; [reflexivity|]].
  - destruct vehicles as [|v vs]; [congruence|].
    unfold Generator.run. rewrite loop_result.
    cbn [Generator.written Generator.vdpUrls Generator.count app Z.add].
    now destruct NoUpdateSitemap.
  - rewrite map_map. cbn [fst].
    apply NoDup_map_equiv. intros a b. apply outPath_eq_iff.
Qed.

End RunOutcome.

Lemma X21_run_reports_records_not_page_files_witness :
  exists pages : list (string * Generator.Page),
    Generator.run Generator.defaults false "2026-11-03"
      (Some (Some [f150; sold])) (Generator.Sitemap Notions.home_only)
    = Generator.Generated pages
        (Generator.Update_Sitemap "2026-11-03"
           (map (Generator.pageUrl Generator.defaults) [f150; sold])
           (Generator.Sitemap Notions.home_only))
        2
    /\ pages = map (fun v => (Generator.relDir Generator.defaults v
                                ++ "/index.html",
                              Generator.render Generator.defaults v))
                 [f150; sold]
    /\ (NoDup (map fst pages)
        <-> NoDup (map (fun v => (Generator.Slug_Id v,
                                  Generator.Slug_Tail Generator.defaults v))
                     [f150; sold])).
Proof.
  apply (X21_run_reports_records_not_page_files Generator.defaults false
           "2026-11-03" [f150; sold] (Generator.Sitemap Notions.home_only)).
  discriminate.
Defined.
